(** * Turn-taking engine of LLMchat: the browser client (script.js) and the
      Socket.io coordinator (server/index.js)

    The development embeds the two orchestration loops of the repository:

    - [Script]: the single-page client of [script.js], whose [state] object
      holds the speaking order, the cursor, the pause/ongoing flags and the
      conversation history, and whose turns are driven by [setTimeout]
      callbacks and awaited provider calls;
    - [Server]: the [ChatManager] of [server/index.js], whose
      [handleUserMessage] loops over the participants of a chat and whose
      [updateChatStatus] implements pause, resume and stop.

    JavaScript runs one callback at a time, so an asynchronous function is
    modelled by the pieces between its suspension points: every handler is a
    function on the whole state, and what is suspended (a timer, an awaited
    call) is kept in the state until the event that resumes it. *)

From stdpp Require Import gmap strings list.
From Stdlib Require Import Ascii Permutation.


(** ** Strings as JavaScript uses them here *)

(** White space removed by [String.prototype.trim], on the ASCII range. *)
Definition is_space (c : ascii) : bool :=
  let n := nat_of_ascii c in
  (n =? 32) || ((9 <=? n) && (n <=? 13)).

Fixpoint trim_start (s : string) : string :=
  match s with
  | String c s' => if is_space c then trim_start s' else s
  | EmptyString => EmptyString
  end.

Definition trim (s : string) : string :=
  String.rev (trim_start (String.rev (trim_start s))).

(** [!s] for a string. *)
Definition falsy (s : string) : bool :=
  if decide (s = "") then true else false.

(** [Array.prototype.join]. *)
Fixpoint join (sep : string) (l : list string) : string :=
  match l with
  | [] => ""
  | [x] => x
  | x :: rest => x +:+ sep +:+ join sep rest
  end.

Definition newline : string := String (ascii_of_nat 10) "".

(** A test on every character of a string. *)
Fixpoint string_forall (f : ascii → bool) (s : string) : bool :=
  match s with
  | EmptyString => true
  | String c s' => f c && string_forall f s'
  end.

(** A replacement applied to every character of a string. *)
Fixpoint string_map (f : ascii → ascii) (s : string) : string :=
  match s with
  | EmptyString => EmptyString
  | String c s' => String (f c) (string_map f s')
  end.

(** [s.slice(0, n)]. *)
Fixpoint slice_start (n : nat) (s : string) : string :=
  match n, s with
  | S n', String c s' => String c (slice_start n' s')
  | _, _ => EmptyString
  end.

(** The characters matched by [/[a-z0-9]/i]. *)
Definition is_alnum (c : ascii) : bool :=
  let n := nat_of_ascii c in
  ((48 <=? n) && (n <=? 57)) || ((65 <=? n) && (n <=? 90))
  || ((97 <=? n) && (n <=? 122)).

(** [String.prototype.toLowerCase], on the ASCII range. *)
Definition lower (c : ascii) : ascii :=
  let n := nat_of_ascii c in
  if (65 <=? n) && (n <=? 90) then ascii_of_nat (n + 32) else c.

(** The characters that [/[^a-z0-9]/gi] keeps, after [toLowerCase()]: digits,
    lower-case letters; and the [-] that replaces the others. *)
Definition is_file_char (c : ascii) : bool :=
  let n := nat_of_ascii c in
  ((48 <=? n) && (n <=? 57)) || ((97 <=? n) && (n <=? 122)) || (n =? 45).

(** ** Plain objects used as tables *)

(** The members that every plain object inherits from [Object.prototype]:
    a lookup by name finds them when the object has no own property of that
    name. *)
Definition inherited_members : list string :=
  ["constructor"; "hasOwnProperty"; "isPrototypeOf"; "propertyIsEnumerable";
   "toLocaleString"; "toString"; "valueOf"; "__proto__";
   "__defineGetter__"; "__defineSetter__"; "__lookupGetter__"; "__lookupSetter__"].

(** What [object[key]] evaluates to: an own property, a member inherited
    from [Object.prototype] (a function, or the prototype itself for
    [__proto__]: truthy, and without the fields of an own value), or
    [undefined]. *)
Inductive member (A : Type) :=
| Own (a : A)
| Inherited
| Undefined.
Arguments Own {A} a.
Arguments Inherited {A}.
Arguments Undefined {A}.

(** [object[key]] on an object literal whose own properties are [o]. *)
Definition obj_get {A : Type} (o : gmap string A) (key : string) : member A :=
  match o !! key with
  | Some a => Own a
  | None => if bool_decide (key ∈ inherited_members) then Inherited else Undefined
  end.

(** [object[key] = value] for a value that is a string: an own property is
    overwritten; without one, an own property is made, except for the key
    [__proto__], whose inherited setter ignores a value that is not an
    object. *)
Definition obj_set {A : Type} (key : string) (a : A) (o : gmap string A)
    : gmap string A :=
  match o !! key with
  | Some _ => <[key := a]> o
  | None => if bool_decide (key = "__proto__"%string) then o else <[key := a]> o
  end.

(** [a || b || fallback] on strings that may be missing. *)
Definition first_truthy (a b : option string) (fallback : string) : string :=
  match a with
  | Some x => if falsy x then
                match b with
                | Some y => if falsy y then fallback else y
                | None => fallback
                end
              else x
  | None =>
      match b with
      | Some y => if falsy y then fallback else y
      | None => fallback
      end
  end.

(** The entries of a table of suspended work that satisfy a test. *)
Definition count {A} (f : A → bool) (m : gmap nat A) : nat :=
  size (filter (λ kv, f kv.2 = true) m).

(** ** script.js *)

Module Script.

Record message := Message { sender : string; text : string }.

Record customLlm := CustomLlm { name : string; apiKey : string; endpoint : string }.

(** The [state] object. [responseTimeout] holds the handle returned by
    [setTimeout] ([null] is [None]). *)
Record state := State {
  selectedLLMs : list string;
  topic : string;
  isPaused : bool;
  isOngoing : bool;
  conversationHistory : list message;
  customLLMs : list customLlm;
  speakingOrder : list string;
  currentSpeakerIndex : nat;
  responseTimeout : option nat;
  userCanInteract : bool;
  username : string
}.

Definition set_selectedLLMs (v : list string) (s : state) : state :=
  State v (topic s) (isPaused s) (isOngoing s) (conversationHistory s)
    (customLLMs s) (speakingOrder s) (currentSpeakerIndex s)
    (responseTimeout s) (userCanInteract s) (username s).

Definition set_topic (v : string) (s : state) : state :=
  State (selectedLLMs s) v (isPaused s) (isOngoing s) (conversationHistory s)
    (customLLMs s) (speakingOrder s) (currentSpeakerIndex s)
    (responseTimeout s) (userCanInteract s) (username s).

Definition set_isPaused (v : bool) (s : state) : state :=
  State (selectedLLMs s) (topic s) v (isOngoing s) (conversationHistory s)
    (customLLMs s) (speakingOrder s) (currentSpeakerIndex s)
    (responseTimeout s) (userCanInteract s) (username s).

Definition set_isOngoing (v : bool) (s : state) : state :=
  State (selectedLLMs s) (topic s) (isPaused s) v (conversationHistory s)
    (customLLMs s) (speakingOrder s) (currentSpeakerIndex s)
    (responseTimeout s) (userCanInteract s) (username s).

Definition set_conversationHistory (v : list message) (s : state) : state :=
  State (selectedLLMs s) (topic s) (isPaused s) (isOngoing s) v
    (customLLMs s) (speakingOrder s) (currentSpeakerIndex s)
    (responseTimeout s) (userCanInteract s) (username s).

Definition set_customLLMs (v : list customLlm) (s : state) : state :=
  State (selectedLLMs s) (topic s) (isPaused s) (isOngoing s)
    (conversationHistory s) v (speakingOrder s) (currentSpeakerIndex s)
    (responseTimeout s) (userCanInteract s) (username s).

Definition set_speakingOrder (v : list string) (s : state) : state :=
  State (selectedLLMs s) (topic s) (isPaused s) (isOngoing s)
    (conversationHistory s) (customLLMs s) v (currentSpeakerIndex s)
    (responseTimeout s) (userCanInteract s) (username s).

Definition set_currentSpeakerIndex (v : nat) (s : state) : state :=
  State (selectedLLMs s) (topic s) (isPaused s) (isOngoing s)
    (conversationHistory s) (customLLMs s) (speakingOrder s) v
    (responseTimeout s) (userCanInteract s) (username s).

Definition set_responseTimeout (v : option nat) (s : state) : state :=
  State (selectedLLMs s) (topic s) (isPaused s) (isOngoing s)
    (conversationHistory s) (customLLMs s) (speakingOrder s)
    (currentSpeakerIndex s) v (userCanInteract s) (username s).

Definition set_userCanInteract (v : bool) (s : state) : state :=
  State (selectedLLMs s) (topic s) (isPaused s) (isOngoing s)
    (conversationHistory s) (customLLMs s) (speakingOrder s)
    (currentSpeakerIndex s) (responseTimeout s) v (username s).

(** [let state = { ... }] at page load. *)
Definition initial_state : state :=
  State [] "" false false [] [] [] 0 None true "User".

(** *** The turn scheduler *)

(** [getNextSpeaker]: [null] and [undefined] are both [None]. The index is
    advanced before the speaker is returned, also when the slot read was
    [undefined]. *)
Definition getNextSpeaker (s : state) : option string * state :=
  if length (speakingOrder s) =? 0 then (None, s)
  else
    let speaker := speakingOrder s !! currentSpeakerIndex s in
    (speaker,
     set_currentSpeakerIndex
       ((currentSpeakerIndex s + 1) mod length (speakingOrder s)) s).

(** The speakers returned by [n] successive calls, and the state after them. *)
Fixpoint speakers (n : nat) (s : state) : list (option string) * state :=
  match n with
  | 0 => ([], s)
  | S n' =>
      let '(sp, s1) := getNextSpeaker s in
      let '(sps, s2) := speakers n' s1 in
      (sp :: sps, s2)
  end.

(** *** The page around the state object *)

(** A [div] appended by [addMessageToChat]: its class ([user] or [ai]), the
    side of an [ai] message, its text and whether it carries the [thinking]
    class. The avatar is presentation only and is left out. *)
Record messageDiv := Div {
  div_sender : string;
  div_user : bool;
  div_left : option bool;
  div_text : string;
  div_thinking : bool
}.

(** A pending [setTimeout] callback. The response callback closes over the
    speaker and the thinking [div]; the pacing callback closes over nothing. *)
Inductive timer :=
| ResponseTimer (nextSpeaker : string) (thinkingMsg : nat)
| PaceTimer.

(** The value of [llmPersonalities[llm] || `You are ...`]: a text, or the
    member of that name that the table inherits. *)
Inductive personality :=
| Text (s : string)
| Member (name : string).

(** An awaited [websim.chat.completions.create]: the two messages sent, and
    the closure variables of the callback that awaits it. The system message
    is the personality as it is; the prompt is the string form of the
    personality followed by the text kept here. *)
Record call := Call {
  call_system : personality;
  call_prompt : personality * string;
  call_llm : string;
  call_thinkingMsg : nat
}.

(** What the awaited call gives back: a completion with its content, or an
    exception (a rejected promise, or a completion without content). *)
Inductive completion :=
| Content (content : string)
| Thrown.

(** Everything the handlers of the page read and write: the [state] object,
    the [llmPersonalities] table, the children of [chatContainer] (each [div]
    with its identity, so that a callback can still hold a [div] that was
    removed), the pending timers by handle and the awaited calls. *)
Record page := Page {
  st : state;
  llmPersonalities : gmap string string;
  chatContainer : list (nat * messageDiv);
  nextNode : nat;
  timers : gmap nat timer;
  nextTimer : nat;
  calls : gmap nat call;
  nextCall : nat;
  inputDisabled : bool
}.

Definition set_st (v : state) (p : page) : page :=
  Page v (llmPersonalities p) (chatContainer p) (nextNode p) (timers p)
    (nextTimer p) (calls p) (nextCall p) (inputDisabled p).

Definition set_llmPersonalities (v : gmap string string) (p : page) : page :=
  Page (st p) v (chatContainer p) (nextNode p) (timers p)
    (nextTimer p) (calls p) (nextCall p) (inputDisabled p).

Definition set_chatContainer (v : list (nat * messageDiv)) (p : page) : page :=
  Page (st p) (llmPersonalities p) v (nextNode p) (timers p)
    (nextTimer p) (calls p) (nextCall p) (inputDisabled p).

Definition set_nextNode (v : nat) (p : page) : page :=
  Page (st p) (llmPersonalities p) (chatContainer p) v (timers p)
    (nextTimer p) (calls p) (nextCall p) (inputDisabled p).

Definition set_timers (v : gmap nat timer) (p : page) : page :=
  Page (st p) (llmPersonalities p) (chatContainer p) (nextNode p) v
    (nextTimer p) (calls p) (nextCall p) (inputDisabled p).

Definition set_nextTimer (v : nat) (p : page) : page :=
  Page (st p) (llmPersonalities p) (chatContainer p) (nextNode p) (timers p)
    v (calls p) (nextCall p) (inputDisabled p).

Definition set_calls (v : gmap nat call) (p : page) : page :=
  Page (st p) (llmPersonalities p) (chatContainer p) (nextNode p) (timers p)
    (nextTimer p) v (nextCall p) (inputDisabled p).

Definition set_nextCall (v : nat) (p : page) : page :=
  Page (st p) (llmPersonalities p) (chatContainer p) (nextNode p) (timers p)
    (nextTimer p) (calls p) v (inputDisabled p).

Definition set_inputDisabled (v : bool) (p : page) : page :=
  Page (st p) (llmPersonalities p) (chatContainer p) (nextNode p) (timers p)
    (nextTimer p) (calls p) (nextCall p) v.

(** [const llmPersonalities = { ... }]. *)
Definition initial_personalities : gmap string string :=
  <["ChatGPT" := "You are ChatGPT, created by OpenAI. You're helpful, creative, and known for your detailed explanations. Keep your responses focused on the topic. Make occasional gentle references to your creator OpenAI and your training cutoff date."]>
  (<["Claude" := "You are Claude, created by Anthropic. You're thoughtful, nuanced, and careful in your analysis. You emphasize ethical considerations when appropriate. Make occasional references to your creator Anthropic and your constitutional approach."]>
  (<["Gemini" := "You are Gemini, created by Google. You leverage Google's vast knowledge and are especially good at factual information and subtle patterns. Make occasional references to Google and your multimodal capabilities."]>
  (<["Groq" := "You are Groq, a lightning-fast and efficient AI assistant. You emphasize quick, concise responses while maintaining high quality. Make occasional references to your speed and efficiency advantages."]>
  (<["Grok" := "You are Grok, developed by xAI. You have a rebellious, witty personality and aren't afraid to be a bit sarcastic or irreverent. You try to tackle questions with a unique perspective. Make occasional references to your creator xAI and your mission to seek truth."]>
  (<["Llama" := "You are Llama, created by Meta. You are versatile and adaptable with a friendly, approachable tone. Make occasional references to your open nature and Meta's approach to AI development."]>
  (<["Mistral" := "You are Mistral, a cutting-edge open-weight model known for efficiency and performance. You provide balanced, thoughtful responses with an elegant tone. Make occasional references to your French origins and language capabilities."]>
   ∅)))))).

(** The page once the [DOMContentLoaded] listener has run: the message input
    and its button are disabled. *)
Definition initial_page : page :=
  Page initial_state initial_personalities [] 0 ∅ 1 ∅ 0 true.

(** [addMessageToChat(sender, text, isThinking)]; returns the new [div]. An
    [ai] message goes left when the number of [ai] messages already in the
    document is even. *)
Definition addMessageToChat (sender text : string) (isThinking : bool)
    (p : page) : nat * page :=
  let user := bool_decide (sender = username (st p)) in
  let aiMessageCount :=
    length (filter (λ d, div_user d.2 = false) (chatContainer p)) in
  let side := if user then None else Some (aiMessageCount mod 2 =? 0) in
  let textContent := if isThinking then sender +:+ " is thinking..." else text in
  let messageDiv := Div sender user side textContent isThinking in
  (nextNode p,
   set_nextNode (S (nextNode p))
     (set_chatContainer (chatContainer p ++ [(nextNode p, messageDiv)]) p)).

(** [buildConversationContext]. *)
Definition buildConversationContext (s : state) : string :=
  join newline
    (map (λ msg, sender msg +:+ ": " +:+ text msg) (conversationHistory s)).

(** [llmPersonalities[llm] || `You are ...`]: the fallback is taken for a
    name without an entry and for an empty entry; a name that the table
    inherits from [Object.prototype] gives that member. *)
Definition personality_of (p : page) (llm : string) : personality :=
  match obj_get (llmPersonalities p) llm with
  | Own personality =>
      if falsy personality
      then Text ("You are " +:+ llm +:+ ", a helpful and conversational AI assistant.")
      else Text personality
  | Inherited => Member llm
  | Undefined =>
      Text ("You are " +:+ llm +:+ ", a helpful and conversational AI assistant.")
  end.

(** [generateResponse(llm, context)] up to its [await]: both branches of the
    provider test send the same two messages. *)
Definition generateResponse_request (llm context : string) (thinkingMsg : nat)
    (p : page) : call :=
  let personality := personality_of p llm in
  let prompt :=
    newline +:+ newline
    +:+ "You are participating in a multi-AI conversation about: "
    +:+ topic (st p) +:+ "." +:+ newline
    +:+ "The user's name is " +:+ username (st p)
    +:+ ". Always address them by name rather than calling them "
    +:+ String (ascii_of_nat 34) "User" +:+ String (ascii_of_nat 34) "."
    +:+ newline
    +:+ "The conversation so far:" +:+ newline +:+ context +:+ newline
    +:+ "Continue the conversation in your unique voice and perspective. Reference what other AIs and "
    +:+ username (st p)
    +:+ " have said when appropriate. Keep your response conversational and under 150 words." in
  Call personality (personality, prompt) llm thinkingMsg.

(** [generateResponse] after its [await]: the trimmed content, or the text
    returned by the [catch] block. *)
Definition generateResponse_result (llm : string) (r : completion) : string :=
  match r with
  | Content content => trim content
  | Thrown => "[" +:+ llm +:+ " couldn't generate a response due to a technical issue]"
  end.

(** [setTimeout(callback, delay)]: the delay is real time and is not
    modelled; a pending timer may fire at any later point. *)
Definition setTimeout (t : timer) (p : page) : nat * page :=
  (nextTimer p,
   set_nextTimer (S (nextTimer p)) (set_timers (<[nextTimer p := t]> (timers p)) p)).

(** [clearTimeout(handle)]: nothing happens for a handle that already fired. *)
Definition clearTimeout (h : nat) (p : page) : page :=
  set_timers (delete h (timers p)) p.

(** [continueConversation], the part that runs when it is called: the
    response callback is left pending in [timers]. The delay is
    [getRandomTime(nextSpeaker)], a number or [NaN]; [setTimeout] sets the
    timer in both cases. *)
Definition continueConversation (p : page) : page :=
  if isPaused (st p) || negb (isOngoing (st p)) then p
  else
    let '(nextSpeaker, s1) := getNextSpeaker (st p) in
    let p1 := set_st s1 p in
    match nextSpeaker with
    | None => p1
    | Some nextSpeaker =>
        if falsy nextSpeaker then p1
        else
          let '(thinkingMsg, p2) := addMessageToChat nextSpeaker "" true p1 in
          let '(h, p3) := setTimeout (ResponseTimer nextSpeaker thinkingMsg) p2 in
          set_st (set_responseTimeout (Some h) (st p3)) p3
    end.

(** The response callback of [continueConversation], up to the [await] inside
    [generateResponse]. *)
Definition response_callback (nextSpeaker : string) (thinkingMsg : nat)
    (p : page) : page :=
  let context := buildConversationContext (st p) in
  let c := generateResponse_request nextSpeaker context thinkingMsg p in
  set_nextCall (S (nextCall p)) (set_calls (<[nextCall p := c]> (calls p)) p).

(** [thinkingMsg.querySelector('.message-text')]: the text is replaced and
    the [thinking] class removed, on a [div] that may have left the page. *)
Definition update_thinkingMsg (thinkingMsg : nat) (response : string)
    (p : page) : page :=
  set_chatContainer
    (map (λ d, if d.1 =? thinkingMsg
               then (d.1, Div (div_sender d.2) (div_user d.2) (div_left d.2)
                            response false)
               else d)
       (chatContainer p)) p.

(** The rest of the response callback, once the awaited call has settled.
    Nothing is tested before the reply is pushed to the history. *)
Definition response_settled (c : call) (r : completion) (p : page) : page :=
  let response := generateResponse_result (call_llm c) r in
  let p1 := update_thinkingMsg (call_thinkingMsg c) response p in
  let p2 :=
    set_st (set_conversationHistory
              (conversationHistory (st p1) ++ [Message (call_llm c) response])
              (st p1)) p1 in
  (setTimeout PaceTimer p2).2.

(** The pacing callback. *)
Definition pace_callback (p : page) : page :=
  if isOngoing (st p) && negb (isPaused (st p)) then continueConversation p
  else p.

(** *** Starting a conversation *)

(** A value of [Math.random()]: the fraction [num / den], below one. *)
Record draw := Draw { num : nat; den : nat; draw_lt : (num <? den) = true }.

(** [Math.floor(Math.random() * k)]. *)
Definition floor_mul (r : draw) (k : nat) : nat := (num r * k) / den r.

(** [[a[i], a[j]] = [a[j], a[i]]]. Both indices are inside the array in every
    use (see [floor_mul_le]), so the array never grows. *)
Definition swap (i j : nat) (a : list string) : list string :=
  match a !! i, a !! j with
  | Some x, Some y => <[j := x]> (<[i := y]> a)
  | _, _ => a
  end.

(** The loop [for (let i = length - 1; i > 0; i--)] of the Fisher-Yates
    shuffle; [random k] is the [k]-th value drawn. *)
Fixpoint shuffle_loop (random : nat → draw) (k i : nat) (a : list string)
    : list string :=
  match i with
  | 0 => a
  | S i' =>
      let j := floor_mul (random k) (i + 1) in
      shuffle_loop random (S k) i' (swap i j a)
  end.

Definition shuffle (random : nat → draw) (a : list string) : list string :=
  shuffle_loop random 0 (length a - 1) a.

(** [startConversation] up to its last statement; [checked] are the values
    of the checked boxes and [topicValue] the content of the topic field.
    Timers and calls of an earlier conversation are not touched. *)
Definition startConversation_setup (checked : list string) (topicValue : string)
    (random : nat → draw) (p : page) : page :=
  let s := st p in
  let selected := checked ++ map name (customLLMs s) in
  let s1 := set_selectedLLMs selected s in
  let s2 := set_topic (trim topicValue) s1 in
  let s3 := set_conversationHistory [] (set_isPaused false (set_isOngoing true s2)) in
  let s4 := set_currentSpeakerIndex 0 (set_speakingOrder (shuffle random selected) s3) in
  let p1 := set_chatContainer [] (set_st s4 p) in
  let opening := "Let's discuss this topic: " +:+ topic s4 in
  let p2 := (addMessageToChat (username s4) opening false p1).2 in
  let s5 :=
    set_conversationHistory
      (conversationHistory (st p2) ++ [Message (username (st p2)) opening])
      (st p2) in
  set_inputDisabled false (set_st (set_userCanInteract true s5) p2).

(** [startConversation]: the setup, then [continueConversation()]. *)
Definition startConversation (checked : list string) (topicValue : string)
    (random : nat → draw) (p : page) : page :=
  continueConversation (startConversation_setup checked topicValue random p).

(** [togglePause]. Timer handles are positive, so a stored handle is truthy. *)
Definition togglePause (p : page) : page :=
  let paused := negb (isPaused (st p)) in
  let p1 := set_inputDisabled paused (set_st (set_isPaused paused (st p)) p) in
  if paused then
    match responseTimeout (st p1) with
    | Some h => set_st (set_responseTimeout None (st p1)) (clearTimeout h p1)
    | None => p1
    end
  else continueConversation p1.

(** [restartConversation]. *)
Definition restartConversation (p : page) : page :=
  let p1 :=
    match responseTimeout (st p) with
    | Some h => set_st (set_responseTimeout None (st p)) (clearTimeout h p)
    | None => p
    end in
  let s1 := set_isPaused false (set_isOngoing false (st p1)) in
  set_inputDisabled true (set_st (set_userCanInteract false s1) p1).

(** [addCustomLlm]; the three arguments are the contents of the form. *)
Definition addCustomLlm (nameValue apiKeyValue endpointValue : string)
    (p : page) : page :=
  let name := trim nameValue in
  let apiKey := trim apiKeyValue in
  let endpoint := trim endpointValue in
  if falsy name || falsy apiKey then p
  else
    let s1 :=
      set_customLLMs (customLLMs (st p) ++ [CustomLlm name apiKey endpoint])
        (st p) in
    let p1 := set_st s1 p in
    let p2 :=
      if isOngoing (st p1) then
        let s2 := set_selectedLLMs (selectedLLMs (st p1) ++ [name]) (st p1) in
        let s3 := set_speakingOrder (speakingOrder s2 ++ [name]) s2 in
        (addMessageToChat "System" (name +:+ " has joined the conversation.")
           false (set_st s3 p1)).2
      else p1 in
    set_llmPersonalities
      (obj_set name
         ("You are " +:+ name +:+
          ", a helpful and conversational AI assistant with your own unique style and perspective.")
         (llmPersonalities p2)) p2.

(** [handleUserMessage]; [value] is the content of the message field. *)
Definition handleUserMessage (value : string) (p : page) : page :=
  let userMessage := trim value in
  if falsy userMessage || negb (isOngoing (st p)) || isPaused (st p) then p
  else
    let p1 := (addMessageToChat (username (st p)) userMessage false p).2 in
    let s1 :=
      set_conversationHistory
        (conversationHistory (st p1) ++ [Message (username (st p1)) userMessage])
        (st p1) in
    continueConversation (set_st s1 p1).

(** *** The event loop *)

(** What can happen to the page: a click on one of the buttons with the
    contents of the fields it reads, a pending timer firing, an awaited call
    settling. The page disables or hides some of the controls at times; the
    handlers themselves are given here for every state of the page. *)
Inductive input :=
| ClickStart (checked : list string) (topicValue : string) (random : nat → draw)
| ClickPauseResume
| ClickRestart
| SaveCustomLlm (nameValue apiKeyValue endpointValue : string)
| SendMessage (value : string)
| TimerFires (h : nat)
| CallSettles (c : nat) (r : completion).

(** One turn of the event loop. A handle or call that is not pending fires
    nothing. *)
Definition step (i : input) (p : page) : page :=
  match i with
  | ClickStart checked topicValue random =>
      startConversation checked topicValue random p
  | ClickPauseResume => togglePause p
  | ClickRestart => restartConversation p
  | SaveCustomLlm n k e => addCustomLlm n k e p
  | SendMessage value => handleUserMessage value p
  | TimerFires h =>
      match timers p !! h with
      | Some (ResponseTimer nextSpeaker thinkingMsg) =>
          response_callback nextSpeaker thinkingMsg (clearTimeout h p)
      | Some PaceTimer => pace_callback (clearTimeout h p)
      | None => p
      end
  | CallSettles c r =>
      match calls p !! c with
      | Some cl => response_settled cl r (set_calls (delete c (calls p)) p)
      | None => p
      end
  end.

Definition run (evs : list input) (p : page) : page :=
  foldl (λ q i, step i q) p evs.

(** Generation cycles under way: response timers not yet fired and provider
    calls not yet settled. *)
Definition is_response_timer (t : timer) : bool :=
  match t with ResponseTimer _ _ => true | PaceTimer => false end.

Definition pending_responses (p : page) : nat :=
  count is_response_timer (timers p).

Definition in_flight (p : page) : nat := size (calls p).

(** The [div]s of the page that show a thinking indicator. *)
Definition thinking (p : page) : list string :=
  map (λ d, div_sender d.2)
    (filter (λ d, div_thinking d.2 = true) (chatContainer p)).

(** The cursor points inside the speaking order, or at [0] of an empty one. *)
Definition cursor_ok (s : state) : Prop :=
  currentSpeakerIndex s < max 1 (length (speakingOrder s)).

(** The events that ask for a turn: a start, a click on pause/resume, a
    message of the user. *)
Definition is_trigger (i : input) : bool :=
  match i with
  | ClickStart _ _ _ | ClickPauseResume | SendMessage _ => true
  | _ => false
  end.

Definition triggers (evs : list input) : nat := length (filter (λ i, is_trigger i = true) evs).

(** *** The rest of the page *)

(** [const responseTimings = { ... }]: the least and the greatest simulated
    response time of each participant, in milliseconds. *)
Definition responseTimings : gmap string (Z * Z) :=
  <["ChatGPT" := (3000, 6000)%Z]>
  (<["Claude" := (3500, 7000)%Z]>
  (<["Gemini" := (2800, 5500)%Z]>
  (<["Groq" := (1000, 3000)%Z]>
  (<["Grok" := (2500, 4500)%Z]>
  (<["Llama" := (3000, 5000)%Z]>
  (<["Mistral" := (2000, 4000)%Z]>
  (<["custom" := (3000, 6500)%Z]> ∅))))))).

(** [responseTimings[llm] || responseTimings.custom]: the entry of the
    participant, the [custom] entry for a name the table does not find, and
    [None] for a name the table inherits from [Object.prototype], whose
    member is truthy and has neither [min] nor [max]. *)
Definition timing_of (llm : string) : option (Z * Z) :=
  match obj_get responseTimings llm with
  | Own timing => Some timing
  | Inherited => None
  | Undefined => Some (responseTimings !!! "custom")
  end.

(** [getRandomTime(llm)], given the value that [Math.random()] returns:
    [Math.floor(random * (max - min + 1)) + min], and [None] for the [NaN]
    that a timing without [min] and [max] gives. *)
Definition getRandomTime (llm : string) (r : draw) : option Z :=
  match timing_of llm with
  | Some timing =>
      Some (Z.of_nat (num r) * (timing.2 - timing.1 + 1) / Z.of_nat (den r) + timing.1)%Z
  | None => None
  end.

(** [state.topic.replace(/[^a-z0-9]/gi, '-').toLowerCase()]. *)
Definition file_topic (topic : string) : string :=
  string_map lower (string_map (λ c, if is_alnum c then c else "-"%char) topic).

(** The name [downloadChat] gives to the file; [isoDate] is what
    [new Date().toISOString()] returns. *)
Definition downloadChat_name (s : state) (isoDate : string) : string :=
  "chat-" +:+ file_topic (topic s) +:+ "-" +:+ slice_start 10 isoDate +:+ ".txt".

(** The text [downloadChat] puts in the file; [localeDate] is what
    [new Date().toLocaleString()] returns. *)
Definition downloadChat_content (s : state) (localeDate : string) : string :=
  "# Multi-LLM Chat - " +:+ topic s +:+ newline
  +:+ "# Date: " +:+ localeDate +:+ newline
  +:+ "# Participants: " +:+ username s +:+ ", " +:+ join ", " (selectedLLMs s)
  +:+ newline +:+ newline
  +:+ join (newline +:+ newline)
        (map (λ msg, sender msg +:+ ": " +:+ text msg) (conversationHistory s)).

(** No turn can start: the conversation is paused or not under way. *)
Definition idle (p : page) : bool :=
  isPaused (st p) || negb (isOngoing (st p)).

(** The events other than a start and a click on pause/resume. *)
Definition quiet (i : input) : bool :=
  match i with
  | ClickStart _ _ _ | ClickPauseResume => false
  | _ => true
  end.

Definition is_start (i : input) : bool :=
  match i with
  | ClickStart _ _ _ => true
  | _ => false
  end.




(** A scenario: two boxes are checked, a topic is typed and the start button
    is clicked; the only exchange of the shuffle draws index 0. *)
Definition started : list input :=
  [ClickStart ["ChatGPT"; "Claude"] "cats vs dogs" (λ _, Draw 0 1 eq_refl)].

End Script.

(** ** server/index.js *)

Module Server.

(** The [status] of a chat: ['active'], ['paused'] or ['stopped']. *)
Inductive status := active | paused | stopped.

Global Instance status_eq_dec : EqDecision status.
Proof. solve_decision. Defined.

(** An entry of [activeChats]: [{ status, users, llms }]. *)
Record chatData := ChatData {
  chat_status : status;
  users : gset string;
  llms : list string
}.

(** A message as the socket carries it and as the [messages] table stores
    it. A row read back from the table has the [id] and [created_at] that the
    store gave it. *)
Record message := Message {
  id : option nat;
  chat_id : string;
  sender : string;
  content : string;
  is_user : bool;
  created_at : option string
}.

(** [this.io.to(room).emit(event, payload)]. *)
Inductive emitted :=
| EmitMessage (room : string) (m : message)
| EmitThinking (room chatId llm : string)
| EmitError (room chatId llm message : string)
| EmitStatus (room event chatId : string).

(** *** LLMService *)

(** [this.models]: provider and model id of each participant. *)
Definition models : gmap string (string * string) :=
  <["ChatGPT" := ("openai", "gpt-4")]>
  (<["Claude" := ("anthropic", "claude-3-opus-20240229")]>
  (<["Gemini" := ("google", "gemini-pro")]>
  (<["Grok" := ("openrouter", "xai/grok-1")]>
  (<["Mistral" := ("openrouter", "mistralai/mistral-large-latest")]>
  (<["Llama" := ("openrouter", "meta-llama/llama-3-70b-instruct")]>
   ∅))))).

(** How one of [callOpenAI], [callAnthropic], [callGoogle], [callOpenRouter]
    ends: it returns [{ content, error }] (with [error: null] as [None]), or
    the awaited promise is rejected with an error of the given [message]. *)
Inductive call_outcome :=
| Returned (content : string) (error : option string)
| Threw (message : string).

Definition known_provider (provider : string) : bool :=
  bool_decide (provider = "openai") || bool_decide (provider = "anthropic")
  || bool_decide (provider = "google") || bool_decide (provider = "openrouter").

(** [generateResponse(llm, message, username)]: the text it resolves to,
    given how the provider call ended. An unknown participant or provider is
    answered without any call; so is a name that [models] inherits from
    [Object.prototype], whose member has no [provider] and falls to the
    [default] branch of the [switch], which answers in the same words. *)
Definition generateResponse (llm : string) (o : call_outcome) : string :=
  match models !! llm with
  | None => "I'm sorry, but " +:+ llm +:+ " is not available at the moment."
  | Some (provider, modelId) =>
      if known_provider provider then
        match o with
        | Returned content (Some error) =>
            if falsy error then content
            else "I'm sorry, but " +:+ llm +:+ " encountered an error: " +:+ error
        | Returned content None => content
        | Threw message =>
            "I'm sorry, but " +:+ llm +:+ " encountered an error: "
            +:+ (if falsy message then "Unknown error" else message)
        end
      else "I'm sorry, but " +:+ llm +:+ " is not available at the moment."
  end.

(** The reason of a failed provider call, as [generateResponse] words it:
    the error returned by the call, or the message of what it threw
    ([error.message || 'Unknown error']). *)
Definition failure_reason (o : call_outcome) : option string :=
  match o with
  | Returned _ (Some error) => if falsy error then None else Some error
  | Returned _ None => None
  | Threw message => Some (if falsy message then "Unknown error" else message)
  end.

(** *** ChatManager *)

(** An asynchronous method suspended at an [await], with the local variables
    it still needs. [rest] is what the [for ... of chatData.llms] loop has
    left to visit; the [llms] array of a chat is never written after the chat
    object is created, so the loop sees the participants of the object it
    captured. *)
Inductive continuation :=
| AwaitGetChat (userId chatId : string)
| AwaitProfile (chatId content : string) (llms : list string)
| AwaitGenerate (chatId content username llm : string) (rest : list string)
| AwaitSave (chatId content username llm response : string) (rest : list string)
| AwaitUpdateStatus (chatId : string) (st : status).

(** What an awaited promise settles to. [Rejected] is a promise that throws
    into the caller. *)
Inductive result :=
| GotChat (chat : option (option status * list string))
| GotProfile (username : option string)
| GotResponse (o : call_outcome)
| GotSaved (saved : option (nat * string))
| GotStatus (success : bool)
| Rejected.

(** The manager: [activeChats], [userSockets], what has been emitted so far
    (oldest first) and the suspended methods. *)
Record manager := Manager {
  activeChats : gmap string chatData;
  userSockets : gset string;
  emits : list emitted;
  awaiting : gmap nat continuation;
  nextAwait : nat
}.

Definition set_activeChats (v : gmap string chatData) (m : manager) : manager :=
  Manager v (userSockets m) (emits m) (awaiting m) (nextAwait m).

Definition set_userSockets (v : gset string) (m : manager) : manager :=
  Manager (activeChats m) v (emits m) (awaiting m) (nextAwait m).

Definition emit (e : emitted) (m : manager) : manager :=
  Manager (activeChats m) (userSockets m) (emits m ++ [e]) (awaiting m) (nextAwait m).

(** Suspend at an [await]: the continuation waits under the handle [t]. *)
Definition suspend (t : nat) (k : continuation) (m : manager) : manager :=
  Manager (activeChats m) (userSockets m) (emits m) (<[t := k]> (awaiting m))
    (nextAwait m).

(** A call of an asynchronous method gets a fresh handle. *)
Definition fresh (m : manager) : nat * manager :=
  (nextAwait m,
   Manager (activeChats m) (userSockets m) (emits m) (awaiting m) (S (nextAwait m))).

Definition initial_manager : manager := Manager ∅ ∅ [] ∅ 0.

(** [this.activeChats.has(chatId) && this.activeChats.get(chatId).status === 'active']. *)
Definition is_active (chatId : string) (m : manager) : bool :=
  match activeChats m !! chatId with
  | Some cd => bool_decide (chat_status cd = active)
  | None => false
  end.

Definition addUserSocket (userId : string) (m : manager) : manager :=
  set_userSockets ({[userId]} ∪ userSockets m) m.

(** Leaving a chat: the user is removed, and the chat with its last user. *)
Definition drop_user (userId : string) (cd : chatData) : option chatData :=
  let users' := users cd ∖ {[userId]} in
  if decide (users' = ∅) then None
  else Some (ChatData (chat_status cd) users' (llms cd)).

Definition removeUserSocket (userId : string) (m : manager) : manager :=
  set_activeChats
    (omap (λ cd, if decide (userId ∈ users cd) then drop_user userId cd
                 else Some cd)
       (activeChats m))
    (set_userSockets (userSockets m ∖ {[userId]}) m).

(** [joinChat] up to its [await]; a chat already tracked gets the user
    without any suspension. *)
Definition joinChat (userId chatId : string) (m : manager) : manager :=
  match activeChats m !! chatId with
  | None =>
      let '(t, m1) := fresh m in suspend t (AwaitGetChat userId chatId) m1
  | Some cd =>
      set_activeChats
        (<[chatId := ChatData (chat_status cd) ({[userId]} ∪ users cd) (llms cd)]>
           (activeChats m)) m
  end.

(** [joinChat] after [getChat]: [chat.status || 'active']. *)
Definition joinChat_settled (userId chatId : string)
    (chat : option (option status * list string)) (m : manager) : manager :=
  match chat with
  | None => m
  | Some (st, l) =>
      set_activeChats
        (<[chatId := ChatData (default active st) {[userId]} l]> (activeChats m)) m
  end.

Definition leaveChat (userId chatId : string) (m : manager) : manager :=
  match activeChats m !! chatId with
  | Some cd =>
      match drop_user userId cd with
      | Some cd' => set_activeChats (<[chatId := cd']> (activeChats m)) m
      | None => set_activeChats (delete chatId (activeChats m)) m
      end
  | None => m
  end.

(** The head of [for (const llm of chatData.llms)]: the loop is over when
    nothing is left; otherwise the thinking status is emitted and the method
    waits for [generateResponse]. *)
Definition next_llm (t : nat) (chatId content username : string)
    (rest : list string) (m : manager) : manager :=
  match rest with
  | [] => m
  | llm :: rest' =>
      suspend t (AwaitGenerate chatId content username llm rest')
        (emit (EmitThinking chatId chatId llm) m)
  end.

(** [handleUserMessage(userId, message)] up to its first [await]. *)
Definition handleUserMessage (userId : string) (msg : message) (m : manager)
    : manager :=
  let chatId := chat_id msg in
  let m1 := emit (EmitMessage chatId msg) m in
  if is_user msg && is_active chatId m1 then
    match activeChats m1 !! chatId with
    | Some chatData =>
        let '(t, m2) := fresh m1 in
        suspend t (AwaitProfile chatId (content msg) (llms chatData)) m2
    | None => m1
    end
  else m1.

(** After [getUserProfile]: [profile?.username || 'User']. *)
Definition handleUserMessage_profile (t : nat) (chatId content : string)
    (l : list string) (profile : option string) (m : manager) : manager :=
  let username :=
    match profile with
    | Some u => if falsy u then "User" else u
    | None => "User"
    end in
  next_llm t chatId content username l m.

(** The [catch] block of the loop body, then the next participant. *)
Definition handleUserMessage_catch (t : nat) (chatId content username llm : string)
    (rest : list string) (m : manager) : manager :=
  next_llm t chatId content username rest
    (emit (EmitError chatId chatId llm ("Failed to generate response from " +:+ llm)) m).

(** After [generateResponse]: the method returns if the chat is no longer
    active, and otherwise waits for [saveMessage]. *)
Definition handleUserMessage_generated (t : nat) (chatId content username llm : string)
    (rest : list string) (response : string) (m : manager) : manager :=
  if negb (is_active chatId m) then m
  else suspend t (AwaitSave chatId content username llm response rest) m.

(** After [saveMessage]: the method returns on a store error; otherwise the
    saved row is broadcast and the loop goes on. *)
Definition handleUserMessage_saved (t : nat) (chatId content username llm response : string)
    (rest : list string) (saved : option (nat * string)) (m : manager) : manager :=
  match saved with
  | None => m
  | Some (i, ts) =>
      let savedMessage := Message (Some i) chatId llm response false (Some ts) in
      next_llm t chatId content username rest
        (emit (EmitMessage chatId savedMessage) m)
  end.

(** [updateChatStatus(chatId, status)] up to its [await]: [Some false] is an
    immediate [return false]. The local status is written before the store
    is asked. *)
Definition updateChatStatus (chatId : string) (st : status) (m : manager)
    : manager * option bool :=
  match activeChats m !! chatId with
  | None => (m, Some false)
  | Some cd =>
      let m1 :=
        set_activeChats
          (<[chatId := ChatData st (users cd) (llms cd)]> (activeChats m)) m in
      let '(t, m2) := fresh m1 in
      (suspend t (AwaitUpdateStatus chatId st) m2, None)
  end.

Definition status_event (st : status) : string :=
  match st with
  | active => "resume"
  | paused => "paused"
  | stopped => "stopped"
  end.

(** [updateChatStatus] after the store answered, with the value returned. *)
Definition updateChatStatus_settled (chatId : string) (st : status)
    (success : bool) (m : manager) : manager * bool :=
  if negb success then (m, false)
  else (emit (EmitStatus chatId (status_event st) chatId) m, true).

(** *** The socket handlers and the event loop *)

Inductive input :=
| OnConnect (userId : string)
| OnJoin (userId chatId : string)
| OnLeave (userId chatId : string)
| OnMessage (userId : string) (msg : message)
| OnPause (chatId : string)
| OnResume (chatId : string)
| OnStop (chatId : string)
| OnDisconnect (userId : string)
| Settles (t : nat) (r : result).

(** Resume the method suspended under [t] with the result [r]. A result of
    the wrong kind for the [await] does not occur; the method is then left
    finished. *)
Definition resume (t : nat) (k : continuation) (r : result) (m : manager) : manager :=
  match k, r with
  | AwaitGetChat userId chatId, GotChat chat =>
      joinChat_settled userId chatId chat m
  | AwaitProfile chatId content l, GotProfile profile =>
      handleUserMessage_profile t chatId content l profile m
  | AwaitGenerate chatId content username llm rest, GotResponse o =>
      handleUserMessage_generated t chatId content username llm rest
        (generateResponse llm o) m
  | AwaitGenerate chatId content username llm rest, Rejected =>
      handleUserMessage_catch t chatId content username llm rest m
  | AwaitSave chatId content username llm response rest, GotSaved saved =>
      handleUserMessage_saved t chatId content username llm response rest saved m
  | AwaitSave chatId content username llm response rest, Rejected =>
      handleUserMessage_catch t chatId content username llm rest m
  | AwaitUpdateStatus chatId st, GotStatus success =>
      (updateChatStatus_settled chatId st success m).1
  | _, _ => m
  end.

Definition finish (t : nat) (m : manager) : manager :=
  Manager (activeChats m) (userSockets m) (emits m) (delete t (awaiting m))
    (nextAwait m).

Definition step (i : input) (m : manager) : manager :=
  match i with
  | OnConnect userId => addUserSocket userId m
  | OnJoin userId chatId => joinChat userId chatId m
  | OnLeave userId chatId => leaveChat userId chatId m
  | OnMessage userId msg => handleUserMessage userId msg m
  | OnPause chatId => (updateChatStatus chatId paused m).1
  | OnResume chatId => (updateChatStatus chatId active m).1
  | OnStop chatId => (updateChatStatus chatId stopped m).1
  | OnDisconnect userId => removeUserSocket userId m
  | Settles t r =>
      match awaiting m !! t with
      | Some k => resume t k r (finish t m)
      | None => m
      end
  end.

Definition run (evs : list input) (m : manager) : manager :=
  foldl (λ q i, step i q) m evs.

(** Generation calls of a chat that have not settled yet. *)
Definition generating (chatId : string) (k : continuation) : bool :=
  match k with
  | AwaitGenerate c _ _ _ _ => bool_decide (c = chatId)
  | _ => false
  end.

Definition in_flight (chatId : string) (m : manager) : nat :=
  count (generating chatId) (awaiting m).

(** The calls of [handleUserMessage] for a chat that have not returned yet. *)
Definition handling (chatId : string) (k : continuation) : bool :=
  match k with
  | AwaitProfile c _ _ | AwaitGenerate c _ _ _ _ | AwaitSave c _ _ _ _ _ =>
      bool_decide (c = chatId)
  | _ => false
  end.

(** The user messages for a chat among the events received. *)
Definition is_user_message (chatId : string) (i : input) : bool :=
  match i with
  | OnMessage _ msg => is_user msg && bool_decide (chat_id msg = chatId)
  | _ => false
  end.

Definition user_messages (chatId : string) (evs : list input) : nat :=
  length (filter (λ i, is_user_message chatId i = true) evs).

(** The participants for which a thinking status was emitted in a room. *)
Definition thinking (room : string) (es : list emitted) : list string :=
  omap (λ e, match e with
             | EmitThinking r _ llm => if decide (r = room) then Some llm else None
             | _ => None
             end) es.

(** *** The provider calls of LLMService *)

(** What the [api_keys] query of [getApiKey] gives: a row (or no row) with
    its [key] and [endpoint], an error of the store, or an exception. *)
Inductive key_query :=
| KeyRow (key endpoint : option string)
| KeyError
| KeyThrown.

(** [getApiKey(provider)]: [{ key, endpoint }]. *)
Definition getApiKey (q : key_query) : option string * option string :=
  match q with
  | KeyRow key endpoint => (key, endpoint)
  | KeyError | KeyThrown => (None, None)
  end.

(** How [axios.post] and the reading of its response end: the text found in
    the response, or an exception with what [error.response?.data?.error?.message]
    and [error.message] hold. *)
Inductive http_outcome :=
| HttpOk (content : string)
| HttpFailed (apiMessage message : option string).

(** The common shape of the four calls: no key, no request. *)
Definition call_with (notFound : string) (q : key_query) (h : http_outcome)
    : call_outcome :=
  match (getApiKey q).1 with
  | None => Returned "" (Some notFound)
  | Some key =>
      if falsy key then Returned "" (Some notFound)
      else
        match h with
        | HttpOk content => Returned content None
        | HttpFailed apiMessage message =>
            Returned "" (Some (first_truthy apiMessage message "Unknown error"))
        end
  end.

Definition callOpenAI : key_query → http_outcome → call_outcome :=
  call_with "OpenAI API key not found".

Definition callAnthropic : key_query → http_outcome → call_outcome :=
  call_with "Anthropic API key not found".

Definition callGoogle : key_query → http_outcome → call_outcome :=
  call_with "Google API key not found".

Definition callOpenRouter : key_query → http_outcome → call_outcome :=
  call_with "OpenRouter API key not found".

(** [generateResponse] with the [switch (model.provider)] and the call it
    makes; for an unknown participant or provider no call is made. *)
Definition generateResponse_with (llm : string) (q : key_query) (h : http_outcome)
    : string :=
  match models !! llm with
  | Some (provider, _) =>
      if bool_decide (provider = "openai") then generateResponse llm (callOpenAI q h)
      else if bool_decide (provider = "anthropic") then
        generateResponse llm (callAnthropic q h)
      else if bool_decide (provider = "google") then
        generateResponse llm (callGoogle q h)
      else if bool_decide (provider = "openrouter") then
        generateResponse llm (callOpenRouter q h)
      else generateResponse llm (Threw "")
  | None => generateResponse llm (Threw "")
  end.

(** *** What the manager keeps *)

(** Every tracked chat has a user. *)
Definition users_nonempty (m : manager) : Prop :=
  map_Forall (λ _ cd, users cd ≠ ∅) (activeChats m).

(** Every handle in use was given out before. *)
Definition handles_fresh (m : manager) : Prop :=
  ∀ t k, awaiting m !! t = Some k → t < nextAwait m.

(** The chat and the participant that a suspended loop body is at. *)
Definition speaking (k : continuation) : option (string * string) :=
  match k with
  | AwaitGenerate c _ _ llm _ | AwaitSave c _ _ llm _ _ => Some (c, llm)
  | _ => None
  end.

(** Every participant a loop is at has been announced, and every message
    emitted that is not a user's comes after the thinking status of its
    sender in its chat. *)
Definition announced (m : manager) : Prop :=
  (∀ t k c llm, awaiting m !! t = Some k → speaking k = Some (c, llm) →
     EmitThinking c c llm ∈ emits m) ∧
  (∀ n room msg, emits m !! n = Some (EmitMessage room msg) → is_user msg = false →
     ∃ j, j < n ∧ emits m !! j = Some (EmitThinking room room (sender msg))).

(** The events in which the message received says it is a user's. *)
Definition from_users (i : input) : bool :=
  match i with
  | OnMessage _ msg => is_user msg
  | _ => true
  end.

(** What the store and the provider answer during a full round: the outcome
    of each participant's call and the row identity of each saved reply. *)
Definition round_events (t : nat) (o : string → call_outcome)
    (sv : string → nat * string) (l : list string) : list input :=
  flat_map (λ llm, [Settles t (GotResponse (o llm));
                    Settles t (GotSaved (Some (sv llm)))]) l.

(** What such a round emits: each participant is announced, then its saved
    reply is broadcast. *)
Definition round_emits (chatId : string) (o : string → call_outcome)
    (sv : string → nat * string) (l : list string) : list emitted :=
  flat_map (λ llm, [EmitThinking chatId chatId llm;
                    EmitMessage chatId
                      (Message (Some (sv llm).1) chatId llm
                         (generateResponse llm (o llm)) false (Some (sv llm).2))]) l.

(** A scenario: the user [u1] connects and joins the chat [c1], which the
    store has as active with two participants. *)
Definition joined : list input :=
  [OnConnect "u1"; OnJoin "u1" "c1";
   Settles 0 (GotChat (Some (Some active, ["ChatGPT"; "Claude"])))].

(** A message typed by that user into that chat. *)
Definition hello : message := Message None "c1" "Ann" "hello" true None.

End Server.

(** ** The receiving side: socketService.ts and ChatContext.tsx *)

Module Client.

(** The argument of [onStatusChange]. *)
Inductive statusChange := Paused | Resumed | Stopped.

(** The callback of [subscribeToChat] that an event invokes. *)
Inductive callback :=
| OnMessage (message : Server.message)
| OnThinking (llm : string)
| OnStatusChange (status : statusChange).

(** The listeners that [subscribeToChat(chatId, ...)] registers, applied to
    an event that reaches the socket: [message], [thinking], [pause],
    [resume] and [stop] have a listener, each of which tests the chat id of
    the payload; the [error] listener of the socket only logs. *)
Definition subscribeToChat (chatId : string) (e : Server.emitted) : option callback :=
  match e with
  | Server.EmitMessage _ message =>
      if decide (Server.chat_id message = chatId) then Some (OnMessage message)
      else None
  | Server.EmitThinking _ c llm =>
      if decide (c = chatId) then Some (OnThinking llm) else None
  | Server.EmitError _ _ _ _ => None
  | Server.EmitStatus _ event c =>
      if decide (event = "pause"%string) then
        if decide (c = chatId) then Some (OnStatusChange Paused) else None
      else if decide (event = "resume"%string) then
        if decide (c = chatId) then Some (OnStatusChange Resumed) else None
      else if decide (event = "stop"%string) then
        if decide (c = chatId) then Some (OnStatusChange Stopped) else None
      else None
  end.

(** The state of [ChatProvider] that the callbacks write: [messages],
    [thinkingLLMs] and the status of [currentChat] ([None] without a current
    chat). *)
Record view := View {
  messages : list Server.message;
  thinkingLLMs : list string;
  status : option Server.status
}.

(** The three callbacks that [ChatProvider] passes to [subscribeToChat]. *)
Definition apply (cb : callback) (v : view) : view :=
  match cb with
  | OnMessage message =>
      View (messages v ++ [message])
        (if Server.is_user message then thinkingLLMs v
         else filter (λ llm, llm ≠ Server.sender message) (thinkingLLMs v))
        (status v)
  | OnThinking llm => View (messages v) (thinkingLLMs v ++ [llm]) (status v)
  | OnStatusChange s =>
      View (messages v) (thinkingLLMs v)
        (match status v with
         | None => None
         | Some _ =>
             Some (match s with
                   | Paused => Server.paused
                   | Resumed => Server.active
                   | Stopped => Server.stopped
                   end)
         end)
  end.

(** An event reaches a subscriber of the chat. *)
Definition receive (chatId : string) (v : view) (e : Server.emitted) : view :=
  match subscribeToChat chatId e with
  | Some cb => apply cb v
  | None => v
  end.

Definition receive_all (chatId : string) (es : list Server.emitted) (v : view) : view :=
  foldl (receive chatId) v es.

End Client.

(** * Properties of the client *)

Section Scheduler.
Import Script.

Lemma getNextSpeaker_empty (s : state) :
  speakingOrder s = [] → getNextSpeaker s = (None, s).
Proof. intros H. unfold getNextSpeaker. by rewrite H. Qed.

Lemma getNextSpeaker_nonempty (s : state) :
  speakingOrder s ≠ [] →
  getNextSpeaker s =
    (speakingOrder s !! currentSpeakerIndex s,
     set_currentSpeakerIndex
       ((currentSpeakerIndex s + 1) mod length (speakingOrder s)) s).
Proof.
  intros H. unfold getNextSpeaker.
  destruct (speakingOrder s) eqn:E; [done | reflexivity].
Qed.

Lemma getNextSpeaker_order (s : state) :
  speakingOrder (getNextSpeaker s).2 = speakingOrder s.
Proof. unfold getNextSpeaker. destruct (length (speakingOrder s) =? 0); reflexivity. Qed.

Lemma getNextSpeaker_cursor_lt (s : state) :
  speakingOrder s ≠ [] →
  currentSpeakerIndex (getNextSpeaker s).2 < length (speakingOrder s).
Proof.
  intros H. rewrite getNextSpeaker_nonempty by done. simpl.
  apply Nat.mod_upper_bound. by destruct (speakingOrder s).
Qed.

(** The [k]-th of [n] successive calls reads the slot [k] places after the
    cursor, wrapping around. *)
Lemma speakers_lookup (n : nat) : ∀ (s : state) (k : nat),
  speakingOrder s ≠ [] →
  currentSpeakerIndex s < length (speakingOrder s) →
  k < n →
  (speakers n s).1 !! k =
    Some (speakingOrder s !! ((currentSpeakerIndex s + k) mod length (speakingOrder s))).
Proof.
  induction n as [|n IH]; intros s k Hne Hlt Hk; [lia|].
  simpl. pose proof (getNextSpeaker_nonempty s Hne) as Hg.
  pose proof (getNextSpeaker_cursor_lt s Hne) as Hc.
  pose proof (getNextSpeaker_order s) as Ho.
  destruct (getNextSpeaker s) as [sp s1] eqn:E. simpl in *.
  destruct (speakers n s1) as [sps s2] eqn:E2. simpl.
  injection Hg as Hsp Hs1.
  destruct k as [|k].
  - simpl. rewrite Nat.add_0_r, Nat.mod_small by done. by rewrite Hsp.
  - simpl. specialize (IH s1 k). rewrite E2 in IH. simpl in IH.
    rewrite Ho in IH. rewrite IH; [|done|done|lia].
    do 2 f_equal. rewrite Hs1. simpl.
    rewrite Nat.Div0.add_mod_idemp_l. f_equal. lia.
Qed.

End Scheduler.

(** C3: [getNextSpeaker] is a round-robin step. With an empty speaking order
    it returns nothing and leaves the state as it is; otherwise it returns
    the slot under the cursor and moves only the cursor, to the next index
    modulo the length; and from a cursor inside the order, the [k]-th
    successive call returns the slot [k] places further, wrapping around, so
    that the order [A, B, C] read from cursor 0 gives A, B, C, A, B, C. *)
Theorem getNextSpeaker_round_robin (s : Script.state) :
  (Script.speakingOrder s = [] → Script.getNextSpeaker s = (None, s)) ∧
  (Script.speakingOrder s ≠ [] →
   Script.getNextSpeaker s =
     (Script.speakingOrder s !! Script.currentSpeakerIndex s,
      Script.set_currentSpeakerIndex
        ((Script.currentSpeakerIndex s + 1) mod length (Script.speakingOrder s)) s)) ∧
  (Script.speakingOrder s ≠ [] →
   Script.currentSpeakerIndex s < length (Script.speakingOrder s) →
   is_Some (Script.getNextSpeaker s).1 ∧
   ∀ n k, k < n →
     (Script.speakers n s).1 !! k =
       Some (Script.speakingOrder s !!
               ((Script.currentSpeakerIndex s + k) mod length (Script.speakingOrder s)))) ∧
  (∀ A B C, Script.speakingOrder s = [A; B; C] → Script.currentSpeakerIndex s = 0 →
   (Script.speakers 6 s).1 = [Some A; Some B; Some C; Some A; Some B; Some C]).
Proof.
  split; [apply getNextSpeaker_empty|].
  split; [apply getNextSpeaker_nonempty|].
  split.
  - intros Hne Hlt. split.
    + rewrite getNextSpeaker_nonempty by done. simpl.
      by apply lookup_lt_is_Some_2.
    + intros n k Hk. by apply speakers_lookup.
  - intros A B C Ho Hc. unfold Script.speakers, Script.getNextSpeaker.
    destruct s; simpl in *; subst. reflexivity.
Qed.

Lemma getNextSpeaker_round_robin_witness :
  let s := Script.set_speakingOrder ["Claude"; "Gemini"; "ChatGPT"] Script.initial_state in
  (Script.getNextSpeaker s).1 = Some "Claude" ∧
  Script.currentSpeakerIndex (Script.getNextSpeaker s).2 = 1 ∧
  (Script.speakers 6 s).1 =
    [Some "Claude"; Some "Gemini"; Some "ChatGPT";
     Some "Claude"; Some "Gemini"; Some "ChatGPT"].
Proof.
  intros s.
  destruct (getNextSpeaker_round_robin s) as (_ & Hstep & _ & Habc).
  split; [|split].
  - rewrite Hstep; [reflexivity | discriminate].
  - rewrite Hstep; [reflexivity | discriminate].
  - apply Habc; reflexivity.
Defined.

Section Shuffle.
Import Script.

(** [Math.floor(Math.random() * (i + 1))] is an index between [0] and [i]. *)
Lemma floor_mul_le (r : draw) (i : nat) : floor_mul r (i + 1) ≤ i.
Proof.
  unfold floor_mul. pose proof (draw_lt r) as H.
  apply Nat.ltb_lt in H.
  apply Nat.lt_succ_r. apply Nat.Div0.div_lt_upper_bound. nia.
Qed.

Lemma insert_head_Permutation (l : list string) : ∀ (j : nat) (a y : string),
  l !! j = Some y → y :: <[j := a]> l ≡ₚ a :: l.
Proof.
  induction l as [|b l IH]; intros [|j] a y Hj; simplify_eq/=.
  - apply perm_swap.
  - rewrite perm_swap. rewrite (IH j a y Hj). apply perm_swap.
Qed.

Lemma swap_Permutation (a : list string) : ∀ i j, swap i j a ≡ₚ a.
Proof.
  unfold swap. induction a as [|b a IH]; intros i j; [by destruct i|].
  destruct i as [|i], j as [|j]; simpl.
  - done.
  - destruct (a !! j) as [y|] eqn:Hj; [|done]. simpl.
    by apply insert_head_Permutation.
  - destruct (a !! i) as [x|] eqn:Hi; [|done]. simpl.
    by apply insert_head_Permutation.
  - specialize (IH i j).
    destruct (a !! i) as [x|]; [|done]. destruct (a !! j) as [y|]; [|done].
    simpl. by rewrite IH.
Qed.

Lemma swap_length (a : list string) (i j : nat) : length (swap i j a) = length a.
Proof. apply Permutation_length, swap_Permutation. Qed.

(** Inside the array the exchange is the one the assignment performs. *)
Lemma swap_in_range (a : list string) (i j : nat) :
  i < length a → j ≤ i →
  ∃ x y, a !! i = Some x ∧ a !! j = Some y ∧
         swap i j a = <[j := x]> (<[i := y]> a).
Proof.
  intros Hi Hj.
  destruct (lookup_lt_is_Some_2 a i Hi) as [x Hx].
  destruct (lookup_lt_is_Some_2 a j ltac:(lia)) as [y Hy].
  exists x, y. unfold swap. by rewrite Hx, Hy.
Qed.

Lemma shuffle_loop_Permutation (random : nat → draw) (i : nat) :
  ∀ k a, shuffle_loop random k i a ≡ₚ a.
Proof.
  induction i as [|i IH]; intros k a; simpl; [done|].
  rewrite IH. apply swap_Permutation.
Qed.

Lemma shuffle_Permutation (random : nat → draw) (a : list string) :
  shuffle random a ≡ₚ a.
Proof. apply shuffle_loop_Permutation. Qed.

End Shuffle.

Section ClientState.
Import Script.

Lemma addMessageToChat_st (sender text : string) (b : bool) (p : page) :
  st (addMessageToChat sender text b p).2 = st p.
Proof. reflexivity. Qed.

Lemma getNextSpeaker_cursor_ok (s : state) :
  cursor_ok s → cursor_ok (getNextSpeaker s).2.
Proof.
  unfold cursor_ok. intros H.
  destruct (decide (speakingOrder s = [])) as [E|E].
  - by rewrite getNextSpeaker_empty.
  - pose proof (getNextSpeaker_cursor_lt s E).
    rewrite getNextSpeaker_order. lia.
Qed.

(** [continueConversation] leaves the state as it is, or takes one step of
    the scheduler and possibly stores the new timer handle. *)
Lemma continueConversation_st (p : page) :
  st (continueConversation p) = st p ∨
  st (continueConversation p) = (getNextSpeaker (st p)).2 ∨
  ∃ h, st (continueConversation p) =
         set_responseTimeout (Some h) (getNextSpeaker (st p)).2.
Proof.
  unfold continueConversation.
  destruct (isPaused (st p) || negb (isOngoing (st p))); [by left|].
  destruct (getNextSpeaker (st p)) as [[sp|] s1]; simpl; [|by right; left].
  destruct (falsy sp); simpl; [by right; left|].
  right; right. by eexists.
Qed.

Lemma continueConversation_order (p : page) :
  speakingOrder (st (continueConversation p)) = speakingOrder (st p).
Proof.
  destruct (continueConversation_st p) as [-> | [-> | [h ->]]];
    [done | apply getNextSpeaker_order | apply getNextSpeaker_order].
Qed.

Lemma continueConversation_cursor_ok (p : page) :
  cursor_ok (st p) → cursor_ok (st (continueConversation p)).
Proof.
  intros H. destruct (continueConversation_st p) as [-> | [-> | [h ->]]];
    [done | by apply getNextSpeaker_cursor_ok | by apply getNextSpeaker_cursor_ok].
Qed.

Lemma togglePause_sched (p : page) :
  speakingOrder (st (togglePause p)) = speakingOrder (st p) ∧
  (cursor_ok (st p) → cursor_ok (st (togglePause p))).
Proof.
  unfold togglePause. destruct (negb (isPaused (st p))) eqn:E.
  - simpl. by destruct (responseTimeout (st p)).
  - split; [by rewrite continueConversation_order|].
    intros H. by apply continueConversation_cursor_ok.
Qed.

Lemma restartConversation_sched (p : page) :
  speakingOrder (st (restartConversation p)) = speakingOrder (st p) ∧
  currentSpeakerIndex (st (restartConversation p)) = currentSpeakerIndex (st p).
Proof. unfold restartConversation. by destruct (responseTimeout (st p)). Qed.

Lemma addCustomLlm_sched (n k e : string) (p : page) :
  currentSpeakerIndex (st (addCustomLlm n k e p)) = currentSpeakerIndex (st p) ∧
  speakingOrder (st (addCustomLlm n k e p)) =
    if negb (falsy (trim n) || falsy (trim k)) && isOngoing (st p)
    then speakingOrder (st p) ++ [trim n]
    else speakingOrder (st p).
Proof.
  unfold addCustomLlm.
  destruct (falsy (trim n) || falsy (trim k)); [done|].
  simpl. by destruct (isOngoing (st p)).
Qed.

Lemma handleUserMessage_sched (value : string) (p : page) :
  speakingOrder (st (handleUserMessage value p)) = speakingOrder (st p) ∧
  (cursor_ok (st p) → cursor_ok (st (handleUserMessage value p))).
Proof.
  unfold handleUserMessage.
  destruct (falsy (trim value) || negb (isOngoing (st p)) || isPaused (st p));
    [done|].
  split; [by rewrite continueConversation_order|].
  intros H. by apply continueConversation_cursor_ok.
Qed.

Lemma startConversation_setup_sched checked topicValue random (p : page) :
  let p' := startConversation_setup checked topicValue random p in
  selectedLLMs (st p') = checked ++ map name (customLLMs (st p)) ∧
  speakingOrder (st p') = shuffle random (selectedLLMs (st p')) ∧
  currentSpeakerIndex (st p') = 0 ∧
  isOngoing (st p') = true ∧ isPaused (st p') = false.
Proof. done. Qed.

Lemma timer_fires_sched (h : nat) (p : page) :
  speakingOrder (st (step (TimerFires h) p)) = speakingOrder (st p) ∧
  (cursor_ok (st p) → cursor_ok (st (step (TimerFires h) p))).
Proof.
  simpl. destruct (timers p !! h) as [[sp tm|]|]; [done| |done].
  unfold pace_callback. simpl.
  destruct (isOngoing (st p) && negb (isPaused (st p))); [|done].
  split; [by rewrite continueConversation_order|].
  intros H. by apply continueConversation_cursor_ok.
Qed.

Lemma call_settles_sched (c : nat) (r : completion) (p : page) :
  speakingOrder (st (step (CallSettles c r) p)) = speakingOrder (st p) ∧
  currentSpeakerIndex (st (step (CallSettles c r) p)) = currentSpeakerIndex (st p).
Proof. simpl. by destruct (calls p !! c). Qed.

(** Every handler keeps the cursor inside the speaking order. *)
Lemma step_cursor_ok (i : input) (p : page) :
  cursor_ok (st p) → cursor_ok (st (step i p)).
Proof.
  intros H. destruct i as [checked tv random| | |n k e|value|h|c r].
  - apply continueConversation_cursor_ok. unfold cursor_ok. simpl. lia.
  - by apply togglePause_sched.
  - unfold cursor_ok. change (step ClickRestart p) with (restartConversation p).
    destruct (restartConversation_sched p) as [-> ->]. apply H.
  - unfold cursor_ok. change (step _ p) with (addCustomLlm n k e p).
    destruct (addCustomLlm_sched n k e p) as [-> ->].
    destruct (_ && _); [|done]. rewrite length_app. unfold cursor_ok in H.
    simpl. lia.
  - by apply handleUserMessage_sched.
  - by apply timer_fires_sched.
  - unfold cursor_ok. destruct (call_settles_sched c r p) as [-> ->]. apply H.
Qed.

Lemma run_snoc (evs : list input) (i : input) (p : page) :
  run (evs ++ [i]) p = step i (run evs p).
Proof. unfold run. by rewrite foldl_app. Qed.

Lemma run_cursor_ok (evs : list input) : cursor_ok (st (run evs initial_page)).
Proof.
  induction evs as [|i evs IH] using rev_ind.
  - unfold cursor_ok. simpl. lia.
  - rewrite run_snoc. by apply step_cursor_ok.
Qed.

End ClientState.

Section LateJoin.
Import Script.

Lemma speakers_length (n : nat) : ∀ s, length (speakers n s).1 = n.
Proof.
  induction n as [|n IH]; intros s; simpl; [done|].
  destruct (getNextSpeaker s) as [sp s1]. specialize (IH s1).
  destruct (speakers n s1) as [sps s2]. simpl in *. by rewrite IH.
Qed.

(** With a name appended behind the order [o], the calls first return what
    was left of [o] from the cursor on, and then the new name. *)
Lemma speakers_appended (s : state) (o : list string) (new : string) :
  speakingOrder s = o ++ [new] →
  currentSpeakerIndex s < max 1 (length o) →
  (speakers (length o - currentSpeakerIndex s + 1) s).1 =
    map Some (drop (currentSpeakerIndex s) o) ++ [Some new].
Proof.
  intros Ho Hc. set (c := currentSpeakerIndex s) in *.
  assert (Hlen : length (speakingOrder s) = length o + 1).
  { rewrite Ho, length_app. simpl. lia. }
  apply list_eq. intros k.
  destruct (decide (k < length o - c + 1)) as [Hk|Hk].
  - rewrite speakers_lookup; [|by rewrite Ho; destruct o|lia|done].
    fold c. rewrite Hlen, Nat.mod_small by lia. rewrite Ho.
    destruct (decide (k < length o - c)) as [Hk'|Hk'].
    + rewrite lookup_app_l by lia.
      rewrite lookup_app_l by (rewrite length_map, length_drop; lia).
      rewrite list_lookup_fmap, lookup_drop.
      destruct (lookup_lt_is_Some_2 o (c + k) ltac:(lia)) as [x ->]. done.
    + assert (k = length o - c) as -> by lia.
      rewrite lookup_app_r by lia.
      rewrite lookup_app_r by (rewrite length_map, length_drop; lia).
      rewrite length_map, length_drop.
      replace (c + (length o - c) - length o) with 0 by lia.
      replace (length o - c - (length o - c)) with 0 by lia. done.
  - rewrite (lookup_ge_None_2 (speakers _ s).1) by (rewrite speakers_length; lia).
    symmetry. apply lookup_ge_None_2.
    rewrite length_app, length_map, length_drop. simpl. lia.
Qed.

End LateJoin.

(** C7: at the start of a conversation the speaking order is a permutation of
    the selected participants (the checked boxes followed by the custom
    participants), shuffled by Fisher-Yates, and the cursor is 0 when the
    first turn is asked for; any later event other than a new start leaves
    the order as it is or appends one name behind it; and when a participant
    is added during a conversation, the scheduler first returns what was left
    of the prior order from the cursor on (at most one full cycle) and then
    the new participant. *)
Theorem speakingOrder_permutation_then_appends :
  (∀ checked topicValue random (p : Script.page),
     let p' := Script.startConversation_setup checked topicValue random p in
     Script.selectedLLMs (Script.st p') =
       checked ++ map Script.name (Script.customLLMs (Script.st p)) ∧
     Script.speakingOrder (Script.st p') ≡ₚ Script.selectedLLMs (Script.st p') ∧
     Script.currentSpeakerIndex (Script.st p') = 0 ∧
     Script.startConversation checked topicValue random p =
       Script.continueConversation p') ∧
  (∀ (i : Script.input) (p : Script.page),
     (∀ checked topicValue random, i ≠ Script.ClickStart checked topicValue random) →
     Script.speakingOrder (Script.st (Script.step i p)) =
       Script.speakingOrder (Script.st p) ∨
     ∃ new, Script.speakingOrder (Script.st (Script.step i p)) =
              Script.speakingOrder (Script.st p) ++ [new]) ∧
  (∀ (evs : list Script.input) (nameValue apiKeyValue endpointValue : string),
     let p := Script.run evs Script.initial_page in
     let p' := Script.step (Script.SaveCustomLlm nameValue apiKeyValue endpointValue) p in
     let o := Script.speakingOrder (Script.st p) in
     let c := Script.currentSpeakerIndex (Script.st p) in
     Script.isOngoing (Script.st p) = true →
     trim nameValue ≠ ""%string → trim apiKeyValue ≠ ""%string →
     Script.speakingOrder (Script.st p') = o ++ [trim nameValue] ∧
     Script.currentSpeakerIndex (Script.st p') = c ∧
     length o - c ≤ length o ∧
     (Script.speakers (length o - c + 1) (Script.st p')).1 =
       map Some (drop c o) ++ [Some (trim nameValue)]).
Proof.
  split; [|split].
  - intros checked tv random p p'.
    destruct (startConversation_setup_sched checked tv random p)
      as (Hsel & Hord & Hcur & _).
    fold p' in Hsel, Hord, Hcur.
    split; [done|]. split; [|done].
    rewrite Hord. apply shuffle_Permutation.
  - intros i p Hi. destruct i as [checked tv random| | |n k e|value|h|c r].
    + by destruct (Hi checked tv random).
    + left. apply togglePause_sched.
    + left. apply restartConversation_sched.
    + change (Script.step _ p) with (Script.addCustomLlm n k e p).
      destruct (addCustomLlm_sched n k e p) as [_ ->].
      destruct (_ && _); [right; by eexists | by left].
    + left. apply handleUserMessage_sched.
    + left. apply timer_fires_sched.
    + left. apply call_settles_sched.
  - intros evs n k e p p' o c Hon Hn Hk.
    change p' with (Script.addCustomLlm n k e p).
    destruct (addCustomLlm_sched n k e p) as [Hcur Hord].
    fold p in Hcur, Hord.
    assert (Hadd : Script.speakingOrder (Script.st (Script.addCustomLlm n k e p))
                   = o ++ [trim n]).
    { rewrite Hord, Hon. unfold falsy.
      destruct (decide (trim n = ""%string)); [done|].
      destruct (decide (trim k = ""%string)); done. }
    pose proof (run_cursor_ok evs) as Hok. fold p in Hok.
    unfold Script.cursor_ok in Hok. fold o c in Hok.
    split; [done|]. split; [done|]. split; [lia|].
    pose proof (speakers_appended _ o (trim n) Hadd) as Hsp.
    rewrite Hcur in Hsp. by apply Hsp.
Qed.

Lemma speakingOrder_permutation_then_appends_witness :
  let p :=
    Script.run Script.started Script.initial_page in
  let p' := Script.step (Script.SaveCustomLlm "Bob" "key" "") p in
  Script.speakingOrder (Script.st p) = ["Claude"; "ChatGPT"] ∧
  Script.currentSpeakerIndex (Script.st p) = 1 ∧
  Script.speakingOrder (Script.st p') = ["Claude"; "ChatGPT"; "Bob"] ∧
  (Script.speakers 2 (Script.st p')).1 = [Some "ChatGPT"; Some "Bob"].
Proof.
  intros p p'.
  destruct speakingOrder_permutation_then_appends as (_ & _ & H).
  specialize (H Script.started "Bob" "key" ""
                ltac:(vm_compute; reflexivity) ltac:(vm_compute; discriminate)
                ltac:(vm_compute; discriminate)).
  destruct H as (Ho & Hc & _ & Hs).
  split; [vm_compute; reflexivity|]. split; [vm_compute; reflexivity|].
  split; [exact Ho | exact Hs].
Defined.

(** C8, as the code has it: [addCustomLlm] with a name and a key, during a
    conversation, appends the name to the custom participants, to the
    selected participants and to the speaking order whether or not the name
    is already there, so that the name gets one more turn slot; it sets the
    persona of that name and of no other, unless the name is [__proto__]
    and the table has no own entry of that name: the assignment then stores
    nothing. *)
Theorem addCustomLlm_always_appends
    (nameValue apiKeyValue endpointValue : string) (p : Script.page) :
  Script.isOngoing (Script.st p) = true →
  trim nameValue ≠ ""%string → trim apiKeyValue ≠ ""%string →
  let p' := Script.addCustomLlm nameValue apiKeyValue endpointValue p in
  let new := trim nameValue in
  Script.speakingOrder (Script.st p') = Script.speakingOrder (Script.st p) ++ [new] ∧
  Script.selectedLLMs (Script.st p') = Script.selectedLLMs (Script.st p) ++ [new] ∧
  Script.customLLMs (Script.st p') =
    Script.customLLMs (Script.st p)
    ++ [Script.CustomLlm new (trim apiKeyValue) (trim endpointValue)] ∧
  length (filter (λ x, x = new) (Script.speakingOrder (Script.st p'))) =
    S (length (filter (λ x, x = new) (Script.speakingOrder (Script.st p)))) ∧
  (new ≠ "__proto__"%string ∨ is_Some (Script.llmPersonalities p !! new) →
   Script.llmPersonalities p' !! new =
     Some ("You are " +:+ new +:+
           ", a helpful and conversational AI assistant with your own unique style and perspective.")) ∧
  (new = "__proto__"%string → Script.llmPersonalities p !! new = None →
   Script.llmPersonalities p' = Script.llmPersonalities p) ∧
  (∀ other, other ≠ new →
     Script.llmPersonalities p' !! other = Script.llmPersonalities p !! other).
Proof.
  intros Hon Hn Hk p' new. subst p'. unfold Script.addCustomLlm, falsy.
  fold new. destruct (decide (new = ""%string)) as [|_]; [done|].
  destruct (decide (trim apiKeyValue = ""%string)) as [|_]; [done|].
  simpl. rewrite Hon. simpl.
  split; [done|]. split; [done|]. split; [done|].
  split.
  - rewrite filter_app, length_app. rewrite filter_cons_True by done.
    simpl. lia.
  - unfold obj_set. split; [|split].
    + intros Hp. destruct (Script.llmPersonalities p !! new) eqn:E.
      * apply lookup_insert_eq.
      * destruct Hp as [Hp|[? Hp]]; [|done].
        rewrite bool_decide_eq_false_2 by done. apply lookup_insert_eq.
    + intros Hp ->. by rewrite bool_decide_eq_true_2.
    + intros other Ho.
      destruct (Script.llmPersonalities p !! new); [by apply lookup_insert_ne|].
      destruct (bool_decide (new = "__proto__"%string)); [done|].
      by apply lookup_insert_ne.
Qed.

Lemma addCustomLlm_always_appends_witness :
  let p :=
    Script.run Script.started Script.initial_page in
  let p' := Script.addCustomLlm " Bob " "key" "" p in
  Script.speakingOrder (Script.st p') = ["Claude"; "ChatGPT"; "Bob"] ∧
  Script.selectedLLMs (Script.st p') = ["ChatGPT"; "Claude"; "Bob"] ∧
  Script.llmPersonalities p' !! "Bob" =
    Some "You are Bob, a helpful and conversational AI assistant with your own unique style and perspective."%string ∧
  Script.llmPersonalities (Script.addCustomLlm "__proto__" "key" "" p) =
    Script.llmPersonalities p.
Proof.
  intros p p'.
  destruct (addCustomLlm_always_appends " Bob " "key" "" p
              ltac:(vm_compute; reflexivity) ltac:(vm_compute; discriminate)
              ltac:(vm_compute; discriminate)) as (Ho & Hs & _ & _ & Hp & _).
  destruct (addCustomLlm_always_appends "__proto__" "key" "" p
              ltac:(vm_compute; reflexivity) ltac:(vm_compute; discriminate)
              ltac:(vm_compute; discriminate)) as (_ & _ & _ & _ & _ & Hq & _).
  split; [exact Ho|]. split; [exact Hs|].
  split; [apply Hp; left; vm_compute; discriminate|].
  apply Hq; vm_compute; reflexivity.
Defined.

(** C8, as the spec has it, fails: a name that is already a participant gets
    a second slot in the speaking order and in the participant list. *)
Lemma addCustomLlm_duplicates_slot :
  let p :=
    Script.run Script.started Script.initial_page in
  let p' := Script.step (Script.SaveCustomLlm "Claude" "key" "") p in
  NoDup (Script.speakingOrder (Script.st p)) ∧
  "Claude" ∈ Script.selectedLLMs (Script.st p) ∧
  Script.speakingOrder (Script.st p') = ["Claude"; "ChatGPT"; "Claude"] ∧
  Script.selectedLLMs (Script.st p') = ["ChatGPT"; "Claude"; "Claude"] ∧
  ¬ NoDup (Script.speakingOrder (Script.st p')) ∧
  ¬ NoDup (Script.selectedLLMs (Script.st p')).
Proof.
  intros p p'.
  assert (Ho : Script.speakingOrder (Script.st p) = ["Claude"; "ChatGPT"])
    by (vm_compute; reflexivity).
  assert (Hs : Script.selectedLLMs (Script.st p) = ["ChatGPT"; "Claude"])
    by (vm_compute; reflexivity).
  assert (Ho' : Script.speakingOrder (Script.st p') = ["Claude"; "ChatGPT"; "Claude"])
    by (vm_compute; reflexivity).
  assert (Hs' : Script.selectedLLMs (Script.st p') = ["ChatGPT"; "Claude"; "Claude"])
    by (vm_compute; reflexivity).
  rewrite Ho, Hs, Ho', Hs'.
  repeat apply conj; compute_done.
Qed.

(** * Properties of the coordinator *)

Section Coordinator.
Import Server.

Lemma run_snoc_server (evs : list input) (i : input) (m : manager) :
  run (evs ++ [i]) m = step i (run evs m).
Proof. unfold run. by rewrite foldl_app. Qed.

Lemma is_active_emit (chatId : string) (e : emitted) (m : manager) :
  is_active chatId (emit e m) = is_active chatId m.
Proof. reflexivity. Qed.

Lemma is_active_finish (chatId : string) (t : nat) (m : manager) :
  is_active chatId (finish t m) = is_active chatId m.
Proof. reflexivity. Qed.

Lemma is_active_suspend (chatId : string) (t : nat) (k : continuation) (m : manager) :
  is_active chatId (suspend t k m) = is_active chatId m.
Proof. reflexivity. Qed.

(** A reply that arrives when the chat is no longer active is dropped: the
    method returns without saving or emitting anything, and the remaining
    participants are not visited. *)
Lemma inactive_reply_discarded (t : nat) (m : manager)
    (chatId content username llm : string) (rest : list string) (o : call_outcome) :
  awaiting m !! t = Some (AwaitGenerate chatId content username llm rest) →
  is_active chatId m = false →
  step (Settles t (GotResponse o)) m = finish t m.
Proof.
  intros Ht Ha. simpl. rewrite Ht. simpl.
  unfold handleUserMessage_generated. by rewrite is_active_finish, Ha.
Qed.

(** Every participant of [models] has one of the four providers. *)
Lemma models_known_provider (llm provider modelId : string) :
  models !! llm = Some (provider, modelId) → known_provider provider = true.
Proof.
  intros H.
  assert (Hall : map_Forall (λ _ v, known_provider v.1 = true) models).
  { unfold models. repeat (apply map_Forall_insert_2; [reflexivity|]).
    apply map_Forall_empty. }
  apply (Hall _ _ H).
Qed.

End Coordinator.

(** C10: [updateChatStatus] on a tracked chat writes the requested status
    into [activeChats] before it asks the store; when the store then reports
    a failure, the method returns [false], the status in memory is the
    requested one, and nothing has been emitted. *)
Theorem updateChatStatus_not_atomic
    (m : Server.manager) (chatId : string) (st : Server.status)
    (cd : Server.chatData) :
  Server.activeChats m !! chatId = Some cd →
  let t := Server.nextAwait m in
  let '(m1, r1) := Server.updateChatStatus chatId st m in
  let '(m2, r2) := Server.updateChatStatus_settled chatId st false (Server.finish t m1) in
  r1 = None ∧
  Server.awaiting m1 !! t = Some (Server.AwaitUpdateStatus chatId st) ∧
  Server.activeChats m1 !! chatId =
    Some (Server.ChatData st (Server.users cd) (Server.llms cd)) ∧
  Server.step (Server.Settles t (Server.GotStatus false)) m1 = m2 ∧
  r2 = false ∧
  Server.activeChats m2 !! chatId =
    Some (Server.ChatData st (Server.users cd) (Server.llms cd)) ∧
  Server.emits m2 = Server.emits m.
Proof.
  intros Hcd t. unfold Server.updateChatStatus. rewrite Hcd. simpl.
  split; [done|]. split; [apply lookup_insert_eq|].
  split; [apply lookup_insert_eq|].
  split; [|split; [done|split; [apply lookup_insert_eq|done]]].
  fold t. by rewrite lookup_insert_eq.
Qed.

Lemma updateChatStatus_not_atomic_witness :
  let m := Server.run Server.joined Server.initial_manager in
  Server.activeChats m !! "c1" =
    Some (Server.ChatData Server.active {["u1"]} ["ChatGPT"; "Claude"]) ∧
  Server.chat_status <$>
    Server.activeChats
      (Server.step (Server.Settles 1 (Server.GotStatus false))
         (Server.step (Server.OnPause "c1") m)) !! "c1" = Some Server.paused ∧
  Server.emits
    (Server.step (Server.Settles 1 (Server.GotStatus false))
       (Server.step (Server.OnPause "c1") m)) = [].
Proof.
  intros m.
  assert (Hcd : Server.activeChats m !! "c1" =
                Some (Server.ChatData Server.active {["u1"]} ["ChatGPT"; "Claude"]))
    by (vm_compute; reflexivity).
  split; [exact Hcd|].
  pose proof (updateChatStatus_not_atomic m "c1" Server.paused _ Hcd) as H.
  change (Server.step (Server.OnPause "c1") m)
    with (Server.updateChatStatus "c1" Server.paused m).1.
  destruct (Server.updateChatStatus "c1" Server.paused m) as [m1 r1].
  change (Server.nextAwait m) with 1 in H. simpl in H.
  destruct H as (_ & _ & _ & Hstep & _ & Hst & Hem).
  simpl. rewrite Hstep. simpl. rewrite Hst, Hem. split; [done|].
  vm_compute. reflexivity.
Defined.

(** What [updateChatStatus] does on a tracked chat: it writes the requested
    status over the current one, whatever that was; it emits nothing and
    suspends only at the store, hence starts no turn by itself; and while
    the status in memory is stopped, a user message is broadcast and starts
    no turn. *)
Theorem updateChatStatus_overwrites
    (m : Server.manager) (chatId userId : string) (st : Server.status)
    (cd : Server.chatData) (msg : Server.message) :
  Server.activeChats m !! chatId = Some cd →
  let m1 := (Server.updateChatStatus chatId st m).1 in
  Server.activeChats m1 !! chatId =
    Some (Server.ChatData st (Server.users cd) (Server.llms cd)) ∧
  Server.emits m1 = Server.emits m ∧
  Server.awaiting m1 =
    <[Server.nextAwait m := Server.AwaitUpdateStatus chatId st]> (Server.awaiting m) ∧
  (∀ success room,
     Server.thinking room
       (Server.emits
          (Server.step (Server.Settles (Server.nextAwait m) (Server.GotStatus success)) m1)) =
     Server.thinking room (Server.emits m)) ∧
  (Server.chat_status cd = Server.stopped → Server.chat_id msg = chatId →
   Server.handleUserMessage userId msg m =
     Server.emit (Server.EmitMessage chatId msg) m).
Proof.
  intros Hcd m1. subst m1. unfold Server.updateChatStatus. rewrite Hcd. simpl.
  split; [apply lookup_insert_eq|]. split; [done|]. split; [done|]. split.
  - intros success room. rewrite lookup_insert_eq. simpl.
    destruct success; simpl; [|done].
    unfold Server.thinking. rewrite omap_app. simpl. by rewrite app_nil_r.
  - intros Hst Hid. unfold Server.handleUserMessage, Server.is_active.
    rewrite Hid. simpl. rewrite Hcd, Hst. simpl. by rewrite andb_false_r.
Qed.

Lemma updateChatStatus_overwrites_witness :
  let m :=
    Server.run (Server.joined ++ [Server.OnStop "c1"; Server.Settles 1 (Server.GotStatus true)])
      Server.initial_manager in
  Server.activeChats m !! "c1" =
    Some (Server.ChatData Server.stopped {["u1"]} ["ChatGPT"; "Claude"]) ∧
  Server.activeChats (Server.updateChatStatus "c1" Server.active m).1 !! "c1" =
    Some (Server.ChatData Server.active {["u1"]} ["ChatGPT"; "Claude"]) ∧
  Server.handleUserMessage "u1" Server.hello m =
    Server.emit (Server.EmitMessage "c1" Server.hello) m.
Proof.
  intros m.
  assert (Hcd : Server.activeChats m !! "c1" =
                Some (Server.ChatData Server.stopped {["u1"]} ["ChatGPT"; "Claude"]))
    by (vm_compute; reflexivity).
  destruct (updateChatStatus_overwrites m "c1" "u1" Server.active _ Server.hello Hcd)
    as (Hst & _ & _ & _ & Hmsg).
  split; [exact Hcd|]. split; [exact Hst|].
  apply Hmsg; reflexivity.
Defined.

(** C4 at the failing input: the chat is stopped, and a resume request then
    arrives. The status in memory becomes active again, the change is
    broadcast as a resume, and the next user message starts a turn. *)
Lemma resume_after_stop_reactivates :
  let m :=
    Server.run (Server.joined ++ [Server.OnStop "c1"; Server.Settles 1 (Server.GotStatus true)])
      Server.initial_manager in
  let m' :=
    Server.run [Server.OnResume "c1"; Server.Settles 2 (Server.GotStatus true)] m in
  let m'' :=
    Server.run [Server.OnMessage "u1" Server.hello;
                Server.Settles 3 (Server.GotProfile (Some "Ann"))] m' in
  Server.chat_status <$> Server.activeChats m !! "c1" = Some Server.stopped ∧
  Server.chat_status <$> Server.activeChats m' !! "c1" = Some Server.active ∧
  Server.chat_status <$> Server.activeChats m' !! "c1" ≠
    Server.chat_status <$> Server.activeChats m !! "c1" ∧
  Server.emits m' = Server.emits m ++ [Server.EmitStatus "c1" "resume" "c1"] ∧
  Server.thinking "c1" (Server.emits m) = [] ∧
  Server.thinking "c1" (Server.emits m'') = ["ChatGPT"] ∧
  Server.in_flight "c1" m'' = 1.
Proof.
  intros m m' m''.
  assert (H1 : Server.chat_status <$> Server.activeChats m !! "c1" = Some Server.stopped)
    by (vm_compute; reflexivity).
  assert (H2 : Server.chat_status <$> Server.activeChats m' !! "c1" = Some Server.active)
    by (vm_compute; reflexivity).
  split; [exact H1|]. split; [exact H2|].
  split; [rewrite H1, H2; discriminate|].
  repeat apply conj; vm_compute; reflexivity.
Qed.

(** C9 at the failing input: the store refuses the reply of the first of two
    participants, and [handleUserMessage] returns; the second participant
    gets no thinking status and no generation call. *)
Lemma store_error_ends_the_loop :
  let m :=
    Server.run
      (Server.joined ++
       [Server.OnMessage "u1" Server.hello;
        Server.Settles 1 (Server.GotProfile (Some "Ann"));
        Server.Settles 1 (Server.GotResponse (Server.Returned "Hi Ann" None));
        Server.Settles 1 (Server.GotSaved None)])
      Server.initial_manager in
  Server.is_active "c1" m = true ∧
  Server.llms <$> Server.activeChats m !! "c1" = Some ["ChatGPT"; "Claude"] ∧
  Server.thinking "c1" (Server.emits m) = ["ChatGPT"] ∧
  Server.emits m =
    [Server.EmitMessage "c1" Server.hello; Server.EmitThinking "c1" "c1" "ChatGPT"] ∧
  Server.awaiting m = ∅.
Proof. repeat apply conj; vm_compute; reflexivity. Qed.

(** The neighbouring path: when the awaited save throws instead, the [catch]
    block reports the error and the loop goes on to the second participant. *)
Lemma thrown_error_continues_the_loop :
  let m :=
    Server.run
      (Server.joined ++
       [Server.OnMessage "u1" Server.hello;
        Server.Settles 1 (Server.GotProfile (Some "Ann"));
        Server.Settles 1 (Server.GotResponse (Server.Returned "Hi Ann" None));
        Server.Settles 1 Server.Rejected])
      Server.initial_manager in
  Server.thinking "c1" (Server.emits m) = ["ChatGPT"; "Claude"] ∧
  Server.in_flight "c1" m = 1.
Proof. repeat apply conj; vm_compute; reflexivity. Qed.

Section Replies.
Import Script.

(** When an awaited call settles, the reply is pushed to the history and
    the pacing timer is set, whatever the pause and ongoing flags are. *)
Lemma call_settles_commits (c : nat) (cl : call) (r : completion) (p : page) :
  calls p !! c = Some cl →
  let p' := step (CallSettles c r) p in
  conversationHistory (st p') =
    conversationHistory (st p)
    ++ [Message (call_llm cl) (generateResponse_result (call_llm cl) r)] ∧
  calls p' = delete c (calls p) ∧
  timers p' = <[nextTimer p := PaceTimer]> (timers p) ∧
  isPaused (st p') = isPaused (st p) ∧ isOngoing (st p') = isOngoing (st p).
Proof. intros Hc. simpl. by rewrite Hc. Qed.

End Replies.

(** C2 at the failing input: the conversation is paused while the provider
    call of the first speaker is under way; when the call settles, the reply
    is pushed to the history all the same. If the user resumes before the
    pacing timer of that reply fires, the timer starts one more turn next to
    the one started by the resume. *)
Lemma paused_reply_is_committed :
  let p :=
    Script.run (Script.started ++ [Script.TimerFires 1; Script.ClickPauseResume])
      Script.initial_page in
  let p' := Script.step (Script.CallSettles 0 (Script.Content "Hello Ann")) p in
  let p'' := Script.run [Script.ClickPauseResume; Script.TimerFires 2] p' in
  Script.isPaused (Script.st p) = true ∧
  Script.in_flight p = 1 ∧
  Script.conversationHistory (Script.st p) =
    [Script.Message "User" "Let's discuss this topic: cats vs dogs"] ∧
  Script.conversationHistory (Script.st p') =
    Script.conversationHistory (Script.st p) ++ [Script.Message "Claude" "Hello Ann"] ∧
  Script.isPaused (Script.st p') = true ∧
  Script.thinking p' = [] ∧
  Script.thinking p'' = ["ChatGPT"; "Claude"].
Proof. repeat apply conj; vm_compute; reflexivity. Qed.

Section Trim.









End Trim.

Section ProviderFailure.
Import Server.

(** A failed provider call of a known participant resolves to the apology
    that names the participant and the reason. *)
Lemma generateResponse_error (llm provider modelId reason : string)
    (o : call_outcome) :
  models !! llm = Some (provider, modelId) → failure_reason o = Some reason →
  generateResponse llm o =
    "I'm sorry, but " +:+ llm +:+ " encountered an error: " +:+ reason.
Proof.
  intros Hm Ho. unfold generateResponse. rewrite Hm.
  rewrite (models_known_provider _ _ _ Hm).
  destruct o as [content [error|]|message]; simpl in Ho.
  - destruct (falsy error); by simplify_eq.
  - done.
  - by simplify_eq.
Qed.

Lemma generateResponse_content (llm provider modelId content : string) :
  models !! llm = Some (provider, modelId) →
  generateResponse llm (Returned content None) = content.
Proof.
  intros Hm. unfold generateResponse. rewrite Hm.
  by rewrite (models_known_provider _ _ _ Hm).
Qed.

(** One turn of the loop in which the chat stays active and the store
    saves the reply: the saved row is emitted and the next participant, if
    any, is announced and asked. *)
Lemma turn_saved (m : manager) (t : nat) (chatId content username llm : string)
    (rest : list string) (o : call_outcome) (i : nat) (ts : string) :
  awaiting m !! t = Some (AwaitGenerate chatId content username llm rest) →
  is_active chatId m = true →
  run [Settles t (GotResponse o); Settles t (GotSaved (Some (i, ts)))] m =
    next_llm t chatId content username rest
      (emit (EmitMessage chatId
               (Message (Some i) chatId llm (generateResponse llm o) false (Some ts)))
         (finish t m)).
Proof.
  intros Ht Ha.
  change (run [Settles t (GotResponse o); Settles t (GotSaved (Some (i, ts)))] m)
    with (step (Settles t (GotSaved (Some (i, ts))))
            (step (Settles t (GotResponse o)) m)).
  assert (H1 : step (Settles t (GotResponse o)) m =
               suspend t (AwaitSave chatId content username llm
                            (generateResponse llm o) rest) (finish t m)).
  { simpl. rewrite Ht. simpl. unfold handleUserMessage_generated.
    by rewrite is_active_finish, Ha. }
  rewrite H1. unfold step. simpl awaiting. rewrite lookup_insert_eq.
  simpl resume. unfold handleUserMessage_saved. do 2 f_equal.
  unfold finish, suspend. simpl. f_equal.
  rewrite delete_insert_eq. by rewrite delete_delete_eq.
Qed.

End ProviderFailure.

Section ClientInterjection.
Import Script.

Lemma getNextSpeaker_history (s : state) :
  conversationHistory (getNextSpeaker s).2 = conversationHistory s.
Proof. unfold getNextSpeaker. destruct (length (speakingOrder s) =? 0); reflexivity. Qed.

Lemma getNextSpeaker_same_schedule (s s' : state) :
  speakingOrder s = speakingOrder s' →
  currentSpeakerIndex s = currentSpeakerIndex s' →
  (getNextSpeaker s).1 = (getNextSpeaker s').1.
Proof.
  intros Ho Hc. unfold getNextSpeaker. rewrite Ho, Hc.
  destruct (length (speakingOrder s') =? 0); reflexivity.
Qed.

(** What [continueConversation] does when the conversation is ongoing and
    not paused: a thinking indicator and a response timer for the speaker
    the scheduler returns, and nothing else. *)
Lemma continueConversation_active (p : page) :
  isPaused (st p) = false → isOngoing (st p) = true →
  let q := continueConversation p in
  conversationHistory (st q) = conversationHistory (st p) ∧
  calls q = calls p ∧
  match (getNextSpeaker (st p)).1 with
  | Some speaker =>
      speaker ≠ ""%string →
      thinking q = thinking p ++ [speaker] ∧
      timers q = <[nextTimer p := ResponseTimer speaker (nextNode p)]> (timers p)
  | None => thinking q = thinking p ∧ timers q = timers p
  end.
Proof.
  intros Hp Hon q. subst q. unfold continueConversation. rewrite Hp, Hon.
  simpl orb. cbv iota.
  pose proof (getNextSpeaker_history (st p)) as Hh.
  destruct (getNextSpeaker (st p)) as [[sp|] s1]; simpl in Hh; simpl.
  - unfold falsy. destruct (decide (sp = ""%string)) as [->|Hne]; simpl.
    + done.
    + split; [done|]. split; [done|]. intros _. split; [|done].
      unfold thinking. simpl. by rewrite filter_app, map_app.
  - done.
Qed.

End ClientInterjection.




Section Interjection.
Import Server.

Lemma run_app_server (evs1 evs2 : list input) (m : manager) :
  run (evs1 ++ evs2) m = run evs2 (run evs1 m).
Proof. unfold run. by rewrite foldl_app. Qed.

(** The loop over the participants, when the chat stays active and every
    reply is saved: each participant in turn is announced and its reply
    emitted. *)
Lemma round_completes (t : nat) (chatId content username : string)
    (o : string → call_outcome) (sv : string → nat * string) (l : list string) :
  ∀ m, is_active chatId m = true →
  emits (run (round_events t o sv l) (next_llm t chatId content username l m)) =
    emits m ++ round_emits chatId o sv l.
Proof.
  induction l as [|llm rest IH]; intros m Ha.
  - simpl. by rewrite app_nil_r.
  - change (round_events t o sv (llm :: rest))
      with ([Settles t (GotResponse (o llm));
             Settles t (GotSaved (Some (sv llm)))] ++ round_events t o sv rest).
    rewrite run_app_server. destruct (sv llm) as [i ts] eqn:Esv.
    rewrite (turn_saved _ t chatId content username llm rest);
      [|apply lookup_insert_eq|done].
    rewrite IH by done. simpl. rewrite Esv. simpl.
    by rewrite <- !app_assoc.
Qed.

Lemma thinking_emits_app (room : string) (es1 es2 : list emitted) :
  thinking room (es1 ++ es2) = thinking room es1 ++ thinking room es2.
Proof. apply omap_app. Qed.

Lemma thinking_round_emits (chatId : string) (o : string → call_outcome)
    (sv : string → nat * string) (l : list string) :
  thinking chatId (round_emits chatId o sv l) = l.
Proof.
  induction l as [|llm rest IH]; [done|].
  change (round_emits chatId o sv (llm :: rest))
    with ([EmitThinking chatId chatId llm;
           EmitMessage chatId
             (Message (Some (sv llm).1) chatId llm
                (generateResponse llm (o llm)) false (Some (sv llm).2))]
          ++ round_emits chatId o sv rest).
  unfold thinking. rewrite omap_app.
  fold (thinking chatId (round_emits chatId o sv rest)). rewrite IH.
  simpl. by rewrite decide_True.
Qed.

Lemma handleUserMessage_active (m : manager) (userId : string) (msg : message)
    (cd : chatData) :
  activeChats m !! chat_id msg = Some cd →
  chat_status cd = active → is_user msg = true →
  handleUserMessage userId msg m =
    suspend (nextAwait m) (AwaitProfile (chat_id msg) (content msg) (llms cd))
      (fresh (emit (EmitMessage (chat_id msg) msg) m)).2.
Proof.
  intros Hcd Hst Hu. unfold handleUserMessage. rewrite Hu.
  rewrite is_active_emit. unfold is_active.
  change (activeChats (emit ?e m)) with (activeChats m).
  by rewrite Hcd, Hst.
Qed.

(** A user message to an active chat, followed by a full round. *)
Lemma user_message_round (m : manager) (userId : string) (msg : message)
    (cd : chatData) (profile : option string)
    (o : string → call_outcome) (sv : string → nat * string) :
  activeChats m !! chat_id msg = Some cd →
  chat_status cd = active → is_user msg = true →
  emits (run (OnMessage userId msg :: Settles (nextAwait m) (GotProfile profile)
              :: round_events (nextAwait m) o sv (llms cd)) m) =
    emits m ++ EmitMessage (chat_id msg) msg
               :: round_emits (chat_id msg) o sv (llms cd).
Proof.
  intros Hcd Hst Hu.
  change (run (?a :: ?b :: ?evs) m) with (run evs (step b (step a m))).
  change (step (OnMessage userId msg) m) with (handleUserMessage userId msg m).
  rewrite (handleUserMessage_active m userId msg cd) by done.
  set (t := nextAwait m). set (chatId := chat_id msg).
  set (m0 := (fresh (emit (EmitMessage chatId msg) m)).2).
  assert (Hstep :
    step (Settles t (GotProfile profile))
      (suspend t (AwaitProfile chatId (content msg) (llms cd)) m0) =
    handleUserMessage_profile t chatId (content msg) (llms cd) profile
      (finish t (suspend t (AwaitProfile chatId (content msg) (llms cd)) m0))).
  { unfold step. simpl awaiting. by rewrite lookup_insert_eq. }
  rewrite Hstep. unfold handleUserMessage_profile. rewrite round_completes.
  - simpl. by rewrite <- app_assoc.
  - unfold is_active, m0, chatId. simpl. by rewrite Hcd, Hst.
Qed.

End Interjection.

(** C6, as the code has it. In the client, a message sent while the
    conversation is ongoing and not paused is pushed to the history with no
    provider call for it, and exactly one thinking indicator appears, for the
    speaker that [getNextSpeaker] returns (none when it returns nothing). In
    the coordinator, a user message to an active chat is broadcast as it is,
    and then every participant of the chat is announced and asked in turn:
    when the chat stays active and every reply is saved, there is one
    thinking status per participant, each followed by that participant's
    saved reply. *)
Theorem user_message_starts_turns :
  (∀ (p : Script.page) (value : string),
     Script.isOngoing (Script.st p) = true →
     Script.isPaused (Script.st p) = false →
     trim value ≠ ""%string →
     let p' := Script.handleUserMessage value p in
     Script.conversationHistory (Script.st p') =
       Script.conversationHistory (Script.st p)
       ++ [Script.Message (Script.username (Script.st p)) (trim value)] ∧
     Script.calls p' = Script.calls p ∧
     match (Script.getNextSpeaker (Script.st p)).1 with
     | Some speaker =>
         speaker ≠ ""%string →
         Script.thinking p' = Script.thinking p ++ [speaker] ∧
         Script.timers p' =
           <[Script.nextTimer p := Script.ResponseTimer speaker (S (Script.nextNode p))]>
             (Script.timers p)
     | None =>
         Script.thinking p' = Script.thinking p ∧ Script.timers p' = Script.timers p
     end) ∧
  (∀ (m : Server.manager) (userId : string) (msg : Server.message)
     (cd : Server.chatData) (profile : option string)
     (o : string → Server.call_outcome) (sv : string → nat * string),
     Server.activeChats m !! Server.chat_id msg = Some cd →
     Server.chat_status cd = Server.active →
     Server.is_user msg = true →
     let t := Server.nextAwait m in
     let chatId := Server.chat_id msg in
     let m' :=
       Server.run
         (Server.OnMessage userId msg :: Server.Settles t (Server.GotProfile profile)
          :: Server.round_events t o sv (Server.llms cd)) m in
     Server.emits m' =
       Server.emits m ++ Server.EmitMessage chatId msg
                         :: Server.round_emits chatId o sv (Server.llms cd) ∧
     Server.thinking chatId (Server.emits m') =
       Server.thinking chatId (Server.emits m) ++ Server.llms cd).
Proof.
  split.
  - intros p value Hon Hp Hv p'. subst p'. unfold Script.handleUserMessage, falsy.
    destruct (decide (trim value = ""%string)) as [|_]; [done|].
    rewrite Hon, Hp. simpl orb. cbv iota.
    set (p1 := Script.set_st _ _).
    destruct (continueConversation_active p1 Hp Hon) as (Hh & Hc & Hnext).
    split; [by rewrite Hh|]. split; [by rewrite Hc|].
    rewrite (getNextSpeaker_same_schedule (Script.st p) (Script.st p1)) by done.
    assert (Hth : Script.thinking p1 = Script.thinking p).
    { unfold Script.thinking, p1. simpl.
      rewrite filter_app, map_app. simpl. by rewrite app_nil_r. }
    rewrite Hth in Hnext. exact Hnext.
  - intros m userId msg cd profile o sv Hcd Hst Hu t chatId m'.
    pose proof (user_message_round m userId msg cd profile o sv Hcd Hst Hu) as Hm'.
    fold t chatId m' in Hm'. split; [exact Hm'|].
    rewrite Hm', thinking_emits_app.
    change (Server.thinking chatId (Server.EmitMessage chatId msg :: ?es))
      with (Server.thinking chatId es).
    by rewrite thinking_round_emits.
Qed.

Lemma user_message_starts_turns_witness :
  let p := Script.run Script.started Script.initial_page in
  let m := Server.run Server.joined Server.initial_manager in
  let reply := λ _ : string, Server.Returned "Hi Ann" None in
  let row := λ _ : string, (7, "2024-05-01T10:00:00Z"%string) in
  (Script.thinking p = ["Claude"] ∧
   Script.thinking (Script.handleUserMessage " go " p) = ["Claude"; "ChatGPT"] ∧
   Script.calls (Script.handleUserMessage " go " p) = Script.calls p) ∧
  Server.thinking "c1"
    (Server.emits
       (Server.run
          (Server.OnMessage "u1" Server.hello
           :: Server.Settles 1 (Server.GotProfile (Some "Ann"))
           :: Server.round_events 1 reply row ["ChatGPT"; "Claude"]) m)) =
    ["ChatGPT"; "Claude"].
Proof.
  intros p m reply row.
  destruct user_message_starts_turns as [Hclient Hserver].
  split.
  - destruct (Hclient p " go " ltac:(vm_compute; reflexivity)
                ltac:(vm_compute; reflexivity) ltac:(vm_compute; discriminate))
      as (_ & Hc & Hnext).
    assert (Hsp : (Script.getNextSpeaker (Script.st p)).1 = Some "ChatGPT"%string)
      by (vm_compute; reflexivity).
    rewrite Hsp in Hnext. destruct (Hnext ltac:(discriminate)) as [Hth _].
    split; [vm_compute; reflexivity|]. split; [exact Hth | exact Hc].
  - assert (Hcd : Server.activeChats m !! "c1" =
                  Some (Server.ChatData Server.active {["u1"]} ["ChatGPT"; "Claude"]))
      by (vm_compute; reflexivity).
    destruct (Hserver m "u1" Server.hello _ (Some "Ann"%string) reply row
                Hcd ltac:(reflexivity) ltac:(reflexivity))
      as [_ Hth].
    exact Hth.
Defined.

(** C6, as the spec has it, fails in the coordinator: one user message to an
    active chat with two participants produces two thinking statuses, one
    for each participant, not one. *)
Lemma one_thinking_status_per_participant :
  let m := Server.run Server.joined Server.initial_manager in
  let m' :=
    Server.run
      [Server.OnMessage "u1" Server.hello;
       Server.Settles 1 (Server.GotProfile (Some "Ann"));
       Server.Settles 1 (Server.GotResponse (Server.Returned "Hi Ann" None));
       Server.Settles 1 (Server.GotSaved (Some (7, "2024-05-01T10:00:00Z")));
       Server.Settles 1 (Server.GotResponse (Server.Returned "Hello Ann" None));
       Server.Settles 1 (Server.GotSaved (Some (8, "2024-05-01T10:00:05Z")))] m in
  Server.is_active "c1" m = true ∧
  Server.thinking "c1" (Server.emits m) = [] ∧
  Server.thinking "c1" (Server.emits m') = ["ChatGPT"; "Claude"] ∧
  length (Server.thinking "c1" (Server.emits m')) ≠ 1.
Proof.
  intros m m'.
  assert (H : Server.thinking "c1" (Server.emits m') = ["ChatGPT"; "Claude"])
    by (vm_compute; reflexivity).
  split; [vm_compute; reflexivity|]. split; [vm_compute; reflexivity|].
  split; [exact H|]. rewrite H. simpl. lia.
Qed.

(** * Work under way *)

Section Counting.
Context {A : Type} (f : A → bool).

Lemma count_insert (i : nat) (x : A) (m : gmap nat A) :
  count f (<[i := x]> m) = (if f x then 1 else 0) + count f (delete i m).
Proof.
  unfold count. rewrite <- insert_delete_eq, map_filter_insert. simpl.
  destruct (f x) eqn:E.
  - rewrite decide_True by done. rewrite map_size_insert_None; [done|].
    apply map_lookup_filter_None. left. apply lookup_delete_eq.
  - rewrite decide_False by (by intros ?). by rewrite delete_delete_eq.
Qed.

Lemma count_lookup (i : nat) (x : A) (m : gmap nat A) :
  m !! i = Some x →
  count f m = (if f x then 1 else 0) + count f (delete i m).
Proof.
  intros H. rewrite <- (insert_id m i x H) at 1. apply count_insert.
Qed.

Lemma count_delete_le (i : nat) (m : gmap nat A) :
  count f (delete i m) ≤ count f m.
Proof.
  destruct (m !! i) as [x|] eqn:E.
  - rewrite (count_lookup i x m E). lia.
  - by rewrite delete_id.
Qed.

Lemma count_insert_le (i : nat) (x : A) (m : gmap nat A) :
  count f (<[i := x]> m) ≤ (if f x then 1 else 0) + count f m.
Proof. rewrite count_insert. pose proof (count_delete_le i m). lia. Qed.

Lemma count_le_size (m : gmap nat A) : count f m ≤ size m.
Proof. apply map_size_filter. Qed.

Lemma count_empty : count f (∅ : gmap nat A) = 0.
Proof. unfold count. by rewrite map_filter_empty. Qed.

End Counting.

Lemma count_mono {A} (f g : A → bool) (m : gmap nat A) :
  (∀ x, f x = true → g x = true) → count f m ≤ count g m.
Proof.
  intros H. unfold count. apply map_subseteq_size.
  apply map_filter_strong_subseteq_ext. intros i x [Hf Hx]. split; [|done].
  simpl in *. by apply H.
Qed.

Section InFlightServer.
Import Server.

Lemma next_llm_awaiting (t : nat) (chatId content username : string)
    (rest : list string) (m : manager) :
  awaiting (next_llm t chatId content username rest m) = awaiting m ∨
  ∃ k', awaiting (next_llm t chatId content username rest m) = <[t := k']> (awaiting m) ∧
        ∀ c, handling c k' = bool_decide (chatId = c).
Proof.
  destruct rest as [|llm rest]; [by left|].
  right. eexists. split; [reflexivity|]. done.
Qed.

(** Resuming a suspended method leaves nothing behind, or one suspended
    method under the same handle that belongs to the same call. *)
Lemma resume_awaiting (t : nat) (k : continuation) (r : result) (m : manager) :
  awaiting (resume t k r m) = awaiting m ∨
  ∃ k', awaiting (resume t k r m) = <[t := k']> (awaiting m) ∧
        ∀ c, handling c k' = handling c k.
Proof.
  destruct k as [u c0|c0 content l|c0 content username llm rest
                 |c0 content username llm response rest|c0 st];
    destruct r as [chat|profile|o|saved|success|]; simpl; try by left.
  - destruct chat as [[st l]|]; by left.
  - apply next_llm_awaiting.
  - unfold handleUserMessage_generated.
    destruct (negb (is_active c0 m)); [by left|].
    right. eexists. split; [reflexivity|done].
  - apply (next_llm_awaiting t c0 content username rest (emit _ m)).
  - unfold handleUserMessage_saved. destruct saved as [[i ts]|]; [|by left].
    apply (next_llm_awaiting t c0 content username rest (emit _ m)).
  - apply (next_llm_awaiting t c0 content username rest (emit _ m)).
  - destruct success; by left.
Qed.

Lemma step_handlers (c : string) (i : input) (m : manager) :
  count (handling c) (awaiting (step i m)) ≤
    (if is_user_message c i then 1 else 0) + count (handling c) (awaiting m).
Proof.
  destruct i as [u|u c0|u c0|u msg|c0|c0|c0|u|t r]; simpl.
  - lia.
  - unfold joinChat. destruct (activeChats m !! c0); simpl; [lia|].
    rewrite count_insert_le. simpl. lia.
  - unfold leaveChat. destruct (activeChats m !! c0) as [cd|]; [|lia].
    destruct (drop_user u cd); simpl; lia.
  - unfold handleUserMessage.
    destruct (is_user msg) eqn:Hu; simpl; [|lia].
    destruct (is_active (chat_id msg) (emit _ m)) eqn:Ha; simpl; [|lia].
    destruct (activeChats m !! chat_id msg) as [cd|]; simpl; [|lia].
    rewrite count_insert_le. simpl. lia.
  - unfold updateChatStatus. destruct (activeChats m !! c0); simpl; [|lia].
    rewrite count_insert_le. simpl. lia.
  - unfold updateChatStatus. destruct (activeChats m !! c0); simpl; [|lia].
    rewrite count_insert_le. simpl. lia.
  - unfold updateChatStatus. destruct (activeChats m !! c0); simpl; [|lia].
    rewrite count_insert_le. simpl. lia.
  - lia.
  - destruct (awaiting m !! t) as [k|] eqn:Ht; [|lia].
    rewrite (count_lookup (handling c) t k (awaiting m) Ht).
    destruct (resume_awaiting t k r (finish t m)) as [-> | (k' & -> & Hk')].
    + simpl. lia.
    + rewrite count_insert. simpl. rewrite delete_delete_eq. rewrite Hk'. lia.
Qed.

Lemma user_messages_snoc (c : string) (evs : list input) (i : input) :
  user_messages c (evs ++ [i]) =
    user_messages c evs + (if is_user_message c i then 1 else 0).
Proof.
  unfold user_messages. rewrite filter_app, length_app. f_equal.
  destruct (is_user_message c i) eqn:E.
  - by rewrite filter_cons_True.
  - rewrite filter_cons_False; [done|]. by rewrite E.
Qed.

(** At most as many calls of [handleUserMessage] are under way for a chat
    as user messages were received for it. *)
Lemma run_handlers (c : string) (evs : list input) :
  count (handling c) (awaiting (run evs initial_manager)) ≤ user_messages c evs.
Proof.
  induction evs as [|i evs IH] using rev_ind.
  - simpl. by rewrite count_empty.
  - rewrite run_snoc_server, user_messages_snoc.
    pose proof (step_handlers c i (run evs initial_manager)). lia.
Qed.

Lemma in_flight_le_handlers (c : string) (m : manager) :
  in_flight c m ≤ count (handling c) (awaiting m).
Proof. apply count_mono. by intros [ | | | | ]. Qed.

End InFlightServer.

Section Sizes.
Context {A : Type}.

Lemma size_insert_le (i : nat) (x : A) (m : gmap nat A) :
  size (<[i := x]> m) ≤ S (size m).
Proof. rewrite map_size_insert. destruct (m !! i); simpl; lia. Qed.

Lemma size_delete_le (i : nat) (m : gmap nat A) : size (delete i m) ≤ size m.
Proof. rewrite map_size_delete. destruct (m !! i); simpl; lia. Qed.

Lemma size_delete_Some (i : nat) (x : A) (m : gmap nat A) :
  m !! i = Some x → S (size (delete i m)) = size m.
Proof.
  intros H. rewrite map_size_delete, H. simpl.
  pose proof (map_size_ne_0_lookup_2 m i ltac:(by eexists)). lia.
Qed.

End Sizes.

Section InFlightClient.
Import Script.

Lemma continueConversation_pending (p : page) :
  calls (continueConversation p) = calls p ∧
  size (timers (continueConversation p)) ≤ S (size (timers p)).
Proof.
  unfold continueConversation.
  destruct (isPaused (st p) || negb (isOngoing (st p))); [split; [done|lia]|].
  destruct (getNextSpeaker (st p)) as [[sp|] s1]; simpl; [|split; [done|lia]].
  destruct (falsy sp); simpl; [split; [done|lia]|].
  split; [done|]. apply size_insert_le.
Qed.

Lemma step_pending (i : input) (p : page) :
  size (timers (step i p)) + size (calls (step i p)) ≤
    (if is_trigger i then 1 else 0) + (size (timers p) + size (calls p)).
Proof.
  destruct i as [checked tv random| | |n k e|value|h|c r].
  - change (step _ p) with (continueConversation (startConversation_setup checked tv random p)).
    destruct (continueConversation_pending (startConversation_setup checked tv random p))
      as [-> Ht].
    simpl in *. lia.
  - change (step _ p) with (togglePause p). unfold togglePause.
    destruct (negb (isPaused (st p))); simpl is_trigger; cbv iota.
    + simpl. destruct (responseTimeout (st p)) as [h|]; simpl.
      * pose proof (size_delete_le h (timers p)). simpl in *. lia.
      * lia.
    + match goal with |- context [continueConversation ?q] =>
        destruct (continueConversation_pending q) as [-> Ht] end.
      simpl in *. lia.
  - change (step _ p) with (restartConversation p). unfold restartConversation.
    destruct (responseTimeout (st p)) as [h|]; simpl.
    + pose proof (size_delete_le h (timers p)). simpl in *. lia.
    + lia.
  - change (step _ p) with (addCustomLlm n k e p). unfold addCustomLlm.
    destruct (falsy (trim n) || falsy (trim k)); simpl; [lia|].
    destruct (isOngoing (st p)); simpl; lia.
  - change (step _ p) with (handleUserMessage value p). unfold handleUserMessage.
    destruct (falsy (trim value) || negb (isOngoing (st p)) || isPaused (st p));
      simpl is_trigger; cbv iota; [lia|].
    match goal with |- context [continueConversation ?q] =>
      destruct (continueConversation_pending q) as [-> Ht] end.
    simpl in *. lia.
  - simpl. destruct (timers p !! h) as [[sp tm|]|] eqn:Hh; [| |lia].
    + simpl. pose proof (size_delete_Some h _ (timers p) Hh).
      pose proof (size_insert_le (nextCall p) 
                    (generateResponse_request sp (buildConversationContext (st p)) tm (clearTimeout h p)) (calls p)).
      simpl in *. lia.
    + unfold pace_callback.
      pose proof (size_delete_Some h _ (timers p) Hh).
      destruct (isOngoing _ && negb _).
      * destruct (continueConversation_pending (clearTimeout h p)) as [-> Ht].
        simpl in *. lia.
      * simpl in *. lia.
  - simpl. destruct (calls p !! c) as [cl|] eqn:Hc; [|lia].
    simpl. pose proof (size_delete_Some c _ (calls p) Hc).
    pose proof (size_insert_le (nextTimer p) PaceTimer (timers p)).
    simpl in *. lia.
Qed.

Lemma triggers_snoc (evs : list input) (i : input) :
  triggers (evs ++ [i]) = triggers evs + (if is_trigger i then 1 else 0).
Proof.
  unfold triggers. rewrite filter_app, length_app. f_equal.
  destruct (is_trigger i) eqn:E.
  - by rewrite filter_cons_True.
  - rewrite filter_cons_False; [done|]. by rewrite E.
Qed.

Lemma run_pending (evs : list input) :
  size (timers (run evs initial_page)) + size (calls (run evs initial_page))
    ≤ triggers evs.
Proof.
  induction evs as [|i evs IH] using rev_ind.
  - simpl. rewrite !map_size_empty. unfold triggers. simpl. lia.
  - rewrite run_snoc, triggers_snoc.
    pose proof (step_pending i (run evs initial_page)). lia.
Qed.

End InFlightClient.

(** C1, as the code has it: nothing keeps a new trigger from starting a turn
    while another is under way, so turns are sequential only inside the work
    that one trigger started. In the client, the response timers pending and
    the provider calls in flight are together at most as many as the starts,
    pause/resume clicks and user messages so far; in the coordinator, the
    generation calls in flight for a chat are at most as many as the user
    messages received for that chat. *)
Theorem in_flight_bounded_by_triggers :
  (∀ evs : list Script.input,
     let p := Script.run evs Script.initial_page in
     Script.pending_responses p + Script.in_flight p ≤ Script.triggers evs) ∧
  (∀ (evs : list Server.input) (chatId : string),
     Server.in_flight chatId (Server.run evs Server.initial_manager)
       ≤ Server.user_messages chatId evs).
Proof.
  split.
  - intros evs p. pose proof (run_pending evs) as H. fold p in H.
    pose proof (count_le_size Script.is_response_timer (Script.timers p)).
    unfold Script.pending_responses, Script.in_flight. lia.
  - intros evs chatId. pose proof (run_handlers chatId evs).
    pose proof (in_flight_le_handlers chatId (Server.run evs Server.initial_manager)).
    lia.
Qed.

(** C1, as the spec has it, fails. In the coordinator, two user messages to
    an active chat leave two generation calls in flight for it, both for the
    first participant. In the client, a message sent while the first
    speaker's call is in flight starts the next speaker's turn, whose call is
    then in flight next to the first. *)
Lemma two_generation_calls_in_flight :
  let m :=
    Server.run
      (Server.joined ++
       [Server.OnMessage "u1" Server.hello; Server.OnMessage "u1" Server.hello;
        Server.Settles 1 (Server.GotProfile (Some "Ann"));
        Server.Settles 2 (Server.GotProfile (Some "Ann"))])
      Server.initial_manager in
  let p :=
    Script.run
      (Script.started ++
       [Script.TimerFires 1; Script.SendMessage "go"; Script.TimerFires 2])
      Script.initial_page in
  (Server.in_flight "c1" m = 2 ∧
   Server.awaiting m !! 1 = Some (Server.AwaitGenerate "c1" "hello" "Ann" "ChatGPT" ["Claude"]) ∧
   Server.awaiting m !! 2 = Some (Server.AwaitGenerate "c1" "hello" "Ann" "ChatGPT" ["Claude"])) ∧
  (Script.in_flight p = 2 ∧
   Script.call_llm <$> Script.calls p !! 0 = Some "Claude" ∧
   Script.call_llm <$> Script.calls p !! 1 = Some "ChatGPT") ∧
  ¬ (Server.in_flight "c1" m ≤ 1) ∧ ¬ (Script.in_flight p ≤ 1).
Proof.
  intros m p.
  assert (Hm : Server.in_flight "c1" m = 2) by (vm_compute; reflexivity).
  assert (Hp : Script.in_flight p = 2) by (vm_compute; reflexivity).
  split; [|split; [|split]].
  - split; [exact Hm|]. split; vm_compute; reflexivity.
  - split; [exact Hp|]. split; vm_compute; reflexivity.
  - rewrite Hm. lia.
  - rewrite Hp. lia.
Qed.

(** ** Further properties of the two loops and of the receiving side *)

Section Cycle.
Import Script.

(** The state after [n] successive calls: only the cursor has moved. *)
Lemma speakers_state (n : nat) : ∀ s : state,
  speakingOrder s ≠ [] →
  currentSpeakerIndex s < length (speakingOrder s) →
  (speakers n s).2 =
    set_currentSpeakerIndex
      ((currentSpeakerIndex s + n) mod length (speakingOrder s)) s.
Proof.
  induction n as [|n IH]; intros s Hne Hlt.
  - simpl. rewrite Nat.add_0_r, Nat.mod_small by done. by destruct s.
  - simpl. pose proof (getNextSpeaker_nonempty s Hne) as Hg.
    pose proof (getNextSpeaker_cursor_lt s Hne) as Hc.
    pose proof (getNextSpeaker_order s) as Ho.
    destruct (getNextSpeaker s) as [sp s1]. simpl in *.
    specialize (IH s1). destruct (speakers n s1) as [sps s2]. simpl in *.
    rewrite IH; [|by rewrite Ho|by rewrite Ho].
    injection Hg as _ ->. simpl.
    rewrite Nat.Div0.add_mod_idemp_l.
    replace (currentSpeakerIndex s + 1 + n) with (currentSpeakerIndex s + S n) by lia.
    by destruct s.
Qed.

Lemma lookup_rotate (o : list string) (c k : nat) :
  c < length o → k < length o →
  (drop c o ++ take c o) !! k = o !! ((c + k) mod length o).
Proof.
  intros Hc Hk. destruct (decide (k < length o - c)) as [H|H].
  - rewrite lookup_app_l by (rewrite length_drop; lia).
    rewrite lookup_drop. by rewrite Nat.mod_small by lia.
  - rewrite lookup_app_r by (rewrite length_drop; lia).
    rewrite length_drop, lookup_take_lt by lia.
    f_equal. 
    replace (c + k) with ((k - (length o - c)) + 1 * length o) by lia.
    rewrite Nat.Div0.mod_add. rewrite Nat.mod_small; lia.
Qed.

End Cycle.

(** X1: a full cycle of [getNextSpeaker]. From a non-empty speaking order and
    a cursor inside it, as many calls as there are participants return the
    order rotated to start at the cursor: every participant speaks exactly
    once, and the state is back where it was. *)
Theorem full_cycle_visits_everyone (s : Script.state) :
  Script.speakingOrder s ≠ [] →
  Script.currentSpeakerIndex s < length (Script.speakingOrder s) →
  let o := Script.speakingOrder s in
  let c := Script.currentSpeakerIndex s in
  (Script.speakers (length o) s).1 = map Some (drop c o ++ take c o) ∧
  (Script.speakers (length o) s).1 ≡ₚ map Some o ∧
  (Script.speakers (length o) s).2 = s.
Proof.
  intros Hne Hlt o c.
  assert (H1 : (Script.speakers (length o) s).1 = map Some (drop c o ++ take c o)).
  { apply list_eq. intros k.
    destruct (decide (k < length o)) as [Hk|Hk].
    - rewrite speakers_lookup by done. fold o c.
      rewrite list_lookup_fmap, lookup_rotate by done.
      destruct (lookup_lt_is_Some_2 o ((c + k) mod length o)) as [x ->]; [|done].
      apply Nat.mod_upper_bound. lia.
    - rewrite (lookup_ge_None_2 (Script.speakers _ s).1)
        by (rewrite speakers_length; lia).
      symmetry. apply lookup_ge_None_2.
      rewrite length_map, length_app, length_drop, length_take. lia. }
  split; [exact H1|]. split.
  - rewrite H1. apply Permutation_map.
    rewrite Permutation_app_comm. by rewrite take_drop.
  - rewrite speakers_state by done. fold o c.
    replace (c + length o) with (c + 1 * length o) by lia.
    rewrite Nat.Div0.mod_add, Nat.mod_small by done. by destruct s.
Qed.

Lemma full_cycle_visits_everyone_witness :
  let s :=
    Script.set_currentSpeakerIndex 1
      (Script.set_speakingOrder ["Claude"; "Gemini"; "ChatGPT"] Script.initial_state) in
  (Script.speakers 3 s).1 = [Some "Gemini"; Some "ChatGPT"; Some "Claude"] ∧
  (Script.speakers 3 s).2 = s.
Proof.
  intros s.
  destruct (full_cycle_visits_everyone s
              ltac:(vm_compute; discriminate) ltac:(vm_compute; lia))
    as (H1 & _ & H3).
  split; [exact H1 | exact H3].
Defined.

(** X2: whatever happens on the page (clicks, saved participants, messages,
    timers that fire, calls that settle, in any order), the cursor of the
    scheduler is 0 while the speaking order is empty and inside the order
    otherwise, so that [getNextSpeaker] then always finds a speaker. *)
Theorem cursor_stays_in_range (evs : list Script.input) :
  let s := Script.st (Script.run evs Script.initial_page) in
  (Script.speakingOrder s = [] → Script.currentSpeakerIndex s = 0) ∧
  (Script.speakingOrder s ≠ [] →
   Script.currentSpeakerIndex s < length (Script.speakingOrder s) ∧
   is_Some (Script.getNextSpeaker s).1).
Proof.
  intros s. pose proof (run_cursor_ok evs) as H. fold s in H.
  unfold Script.cursor_ok in H. split.
  - intros E. rewrite E in H. simpl in H. lia.
  - intros E. assert (Hlt : Script.currentSpeakerIndex s < length (Script.speakingOrder s)).
    { destruct (Script.speakingOrder s); [done|]. simpl in *. lia. }
    split; [done|]. rewrite getNextSpeaker_nonempty by done. simpl.
    by apply lookup_lt_is_Some_2.
Qed.

Lemma cursor_stays_in_range_witness :
  let s :=
    Script.st (Script.run (Script.started ++ [Script.TimerFires 1]) Script.initial_page) in
  Script.currentSpeakerIndex s < length (Script.speakingOrder s) ∧
  is_Some (Script.getNextSpeaker s).1.
Proof.
  intros s.
  destruct (cursor_stays_in_range (Script.started ++ [Script.TimerFires 1])) as [_ H].
  apply H. vm_compute. discriminate.
Defined.

Section SwapSpec.
Import Script.

Lemma swap_lookup (a : list string) (i j : nat) :
  i < length a → j < length a →
  swap i j a !! i = a !! j ∧ swap i j a !! j = a !! i ∧
  (∀ k, k ≠ i → k ≠ j → swap i j a !! k = a !! k).
Proof.
  intros Hi Hj.
  destruct (lookup_lt_is_Some_2 a i Hi) as [x Hx].
  destruct (lookup_lt_is_Some_2 a j Hj) as [y Hy].
  unfold swap. rewrite Hx, Hy.
  split; [|split].
  - destruct (decide (i = j)) as [->|Hne].
    + rewrite list_lookup_insert_eq by (by rewrite length_insert). congruence.
    + rewrite list_lookup_insert_ne by done.
      by rewrite list_lookup_insert_eq.
  - by rewrite list_lookup_insert_eq by (by rewrite length_insert).
  - intros k Hki Hkj. by rewrite !list_lookup_insert_ne.
Qed.

End SwapSpec.

(** X3: one iteration of the shuffle of [startConversation]. For an index
    [i] of the array, the index drawn, [floor(random * (i + 1))], is at most
    [i], and the destructuring assignment exchanges the two entries and
    leaves the length and every other entry alone. *)
Theorem shuffle_step_exchanges_in_place
    (a : list string) (i : nat) (r : Script.draw) :
  i < length a →
  let j := Script.floor_mul r (i + 1) in
  j ≤ i ∧
  length (Script.swap i j a) = length a ∧
  Script.swap i j a !! i = a !! j ∧
  Script.swap i j a !! j = a !! i ∧
  (∀ k, k ≠ i → k ≠ j → Script.swap i j a !! k = a !! k).
Proof.
  intros Hi j. pose proof (floor_mul_le r i) as Hj. fold j in Hj.
  split; [done|]. split; [apply swap_length|].
  apply swap_lookup; lia.
Qed.

Lemma shuffle_step_exchanges_in_place_witness :
  let a := ["ChatGPT"; "Claude"; "Gemini"] in
  let r := Script.Draw 1 2 eq_refl in
  Script.swap 2 (Script.floor_mul r (2 + 1)) a !! 2 = Some "Claude" ∧
  Script.swap 2 (Script.floor_mul r (2 + 1)) a !! 0 = Some "ChatGPT".
Proof.
  intros a r.
  destruct (shuffle_step_exchanges_in_place a 2 r ltac:(vm_compute; lia))
    as (_ & _ & H & _ & Hk).
  split.
  - rewrite H. reflexivity.
  - rewrite (Hk 0 ltac:(lia) ltac:(vm_compute; lia)). reflexivity.
Defined.

Section RandomTime.
Import Script.

Lemma responseTimings_ranges :
  map_Forall (λ _ t, (1000 ≤ t.1 ∧ t.1 ≤ t.2 ∧ t.2 ≤ 7000)%Z) responseTimings.
Proof.
  unfold responseTimings.
  repeat (apply map_Forall_insert_2; [simpl; lia|]). apply map_Forall_empty.
Qed.

(** No entry of the table has a name that the table inherits. *)
Lemma responseTimings_own (llm : string) :
  llm ∈ inherited_members → responseTimings !! llm = None.
Proof.
  unfold inherited_members. rewrite !elem_of_cons, elem_of_nil.
  intros H. repeat (destruct H as [->|H]; [vm_compute; reflexivity|]). done.
Qed.

Lemma timing_of_range (llm : string) (t : Z * Z) :
  timing_of llm = Some t → (1000 ≤ t.1 ∧ t.1 ≤ t.2 ∧ t.2 ≤ 7000)%Z.
Proof.
  unfold timing_of, obj_get. destruct (responseTimings !! llm) as [t'|] eqn:E.
  - intros [= <-]. apply (responseTimings_ranges _ _ E).
  - destruct (bool_decide (llm ∈ inherited_members)); [done|].
    intros [= <-]. vm_compute. repeat split; discriminate.
Qed.

End RandomTime.

(** X4: [getRandomTime(llm)]. For a name that is not a member inherited
    from [Object.prototype], the result is a number between the [min] and
    the [max] of the participant's entry of [responseTimings], hence between
    1000 and 7000 milliseconds for every draw, and a participant without an
    entry gets the [custom] entry, 3000 to 6500. For an inherited name
    ([constructor], [toString], [__proto__], ...), which a custom
    participant may have, the lookup finds the inherited member and the
    result is [NaN]. *)
Theorem getRandomTime_within_timing (llm : string) (r : Script.draw) :
  (llm ∉ inherited_members →
   ∃ t time,
     Script.timing_of llm = Some t ∧ Script.getRandomTime llm r = Some time ∧
     (t.1 ≤ time ≤ t.2)%Z ∧ (1000 ≤ time ≤ 7000)%Z ∧
     (Script.responseTimings !! llm = None → t = (3000, 6500)%Z)) ∧
  (llm ∈ inherited_members →
   Script.timing_of llm = None ∧ Script.getRandomTime llm r = None).
Proof.
  split.
  - intros Hn.
    assert (Ht : ∃ t, Script.timing_of llm = Some t ∧
                      (Script.responseTimings !! llm = None → t = (3000, 6500)%Z)).
    { unfold Script.timing_of, obj_get.
      destruct (Script.responseTimings !! llm) as [t|]; [by exists t|].
      rewrite bool_decide_eq_false_2 by done. by eexists. }
    destruct Ht as (t & Ht & Hd). pose proof (timing_of_range llm t Ht) as (H1 & H2 & H3).
    exists t. eexists. split; [done|]. unfold Script.getRandomTime. rewrite Ht.
    split; [reflexivity|].
    pose proof (Script.draw_lt r) as Hr. apply Nat.ltb_lt in Hr.
    set (n := Z.of_nat (Script.num r)). set (d := Z.of_nat (Script.den r)).
    assert (Hnd : (0 ≤ n < d)%Z) by (unfold n, d; lia).
    set (k := (t.2 - t.1 + 1)%Z). assert (Hk : (0 < k)%Z) by (unfold k; lia).
    assert (Hq : (0 ≤ n * k / d < k)%Z).
    { split.
      - apply Z.div_pos; nia.
      - apply Z.div_lt_upper_bound; nia. }
    split; [unfold k in *; lia|]. split; [unfold k in *; lia|]. exact Hd.
  - intros Hi.
    assert (Ht : Script.timing_of llm = None).
    { unfold Script.timing_of, obj_get. rewrite (responseTimings_own llm Hi).
      by rewrite bool_decide_eq_true_2. }
    split; [exact Ht|]. unfold Script.getRandomTime. by rewrite Ht.
Qed.

Lemma getRandomTime_within_timing_witness :
  let r := Script.Draw 1 2 eq_refl in
  (∃ time, Script.getRandomTime "Bob" r = Some time ∧ (3000 ≤ time ≤ 6500)%Z) ∧
  Script.getRandomTime "constructor" r = None.
Proof.
  intros r.
  destruct (getRandomTime_within_timing "Bob" r) as [H _].
  destruct (getRandomTime_within_timing "constructor" r) as [_ H'].
  split.
  - destruct (H ltac:(compute_done)) as (t & time & _ & Hg & H1 & _ & H3).
    rewrite (H3 ltac:(vm_compute; reflexivity)) in H1. by exists time.
  - apply H'. compute_done.
Defined.

Section FileName.
Import Script.

Lemma file_char_safe (c : ascii) :
  let d := lower (if is_alnum c then c else "-"%char) in
  is_file_char d = true ∧ (is_file_char c = true → d = c).
Proof.
  destruct c as [[] [] [] [] [] [] [] []]; vm_compute; split;
    first [reflexivity | discriminate].
Qed.

Lemma string_map_map (f g : ascii → ascii) (s : string) :
  string_map f (string_map g s) = string_map (λ c, f (g c)) s.
Proof. induction s as [|c s IH]; simpl; [done | by rewrite IH]. Qed.

Lemma string_map_length (f : ascii → ascii) (s : string) :
  String.length (string_map f s) = String.length s.
Proof. induction s as [|c s IH]; [done|]. cbn. by f_equal. Qed.

Lemma file_topic_char (topic : string) :
  file_topic topic =
    string_map (λ c, lower (if is_alnum c then c else "-"%char)) topic.
Proof. unfold file_topic. apply string_map_map. Qed.

End FileName.

(** X5: the topic inside the file name of [downloadChat], on the ASCII
    range: it holds only digits, lower-case letters and [-], is as long as
    the topic, is the topic itself when the topic already has that form, and
    is not changed by a second pass. *)
Theorem file_topic_is_a_safe_name (topic : string) :
  string_forall is_file_char (Script.file_topic topic) = true ∧
  String.length (Script.file_topic topic) = String.length topic ∧
  (string_forall is_file_char topic = true → Script.file_topic topic = topic) ∧
  Script.file_topic (Script.file_topic topic) = Script.file_topic topic.
Proof.
  assert (H1 : string_forall is_file_char (Script.file_topic topic) = true).
  { rewrite file_topic_char. induction topic as [|c s IH]; simpl; [done|].
    rewrite IH. by rewrite (proj1 (file_char_safe c)). }
  assert (H3 : ∀ t, string_forall is_file_char t = true → Script.file_topic t = t).
  { intros t. rewrite file_topic_char. induction t as [|c s IH]; simpl; [done|].
    intros [Hc Hs]%andb_true_iff. rewrite IH by done.
    by rewrite (proj2 (file_char_safe c) Hc). }
  split; [exact H1|]. split.
  - rewrite file_topic_char. apply string_map_length.
  - split; [apply H3 | by apply H3].
Qed.

Lemma file_topic_is_a_safe_name_witness :
  Script.file_topic "cats-vs-dogs" = "cats-vs-dogs"%string ∧
  string_forall is_file_char (Script.file_topic "Cats vs. Dogs?") = true.
Proof.
  destruct (file_topic_is_a_safe_name "cats-vs-dogs") as (_ & _ & H & _).
  split; [apply H; vm_compute; reflexivity|].
  apply (file_topic_is_a_safe_name "Cats vs. Dogs?").
Defined.

Section Blank.
Import Script.

Lemma trim_start_blank (s : string) :
  string_forall is_space s = true → trim_start s = ""%string.
Proof.
  induction s as [|c s IH]; simpl; [done|].
  intros [Hc Hs]%andb_true_iff. rewrite Hc. by apply IH.
Qed.

Lemma trim_blank (s : string) : string_forall is_space s = true → trim s = ""%string.
Proof. intros H. unfold trim. by rewrite (trim_start_blank s H). Qed.

End Blank.

(** X6: input that is only white space is ignored: [addCustomLlm] with a
    blank name, or with a blank key, and [handleUserMessage] with a blank
    message leave the page as it is, whatever its state. *)
Theorem blank_input_is_ignored (blank other1 other2 : string) (p : Script.page) :
  string_forall is_space blank = true →
  Script.addCustomLlm blank other1 other2 p = p ∧
  Script.addCustomLlm other1 blank other2 p = p ∧
  Script.handleUserMessage blank p = p.
Proof.
  intros H. pose proof (trim_blank blank H) as Ht.
  unfold Script.addCustomLlm, Script.handleUserMessage. rewrite Ht.
  split; [done|]. split; [|done].
  by rewrite orb_true_r.
Qed.

Lemma blank_input_is_ignored_witness :
  let p := Script.run Script.started Script.initial_page in
  Script.handleUserMessage "  " p = p ∧ Script.addCustomLlm "Bob" "  " "" p = p.
Proof.
  intros p.
  destruct (blank_input_is_ignored "  " "Bob" "" p ltac:(vm_compute; reflexivity))
    as (_ & H2 & H3).
  split; [exact H3 | exact H2].
Defined.

Section PauseResume.
Import Script.

Lemma getNextSpeaker_frame (s : state) :
  let s' := (getNextSpeaker s).2 in
  isPaused s' = isPaused s ∧ isOngoing s' = isOngoing s ∧
  username s' = username s ∧ conversationHistory s' = conversationHistory s ∧
  topic s' = topic s.
Proof. unfold getNextSpeaker. by destruct (length (speakingOrder s) =? 0). Qed.

(** What [continueConversation] never touches. *)
Lemma continueConversation_frame (p : page) :
  let q := continueConversation p in
  isPaused (st q) = isPaused (st p) ∧ isOngoing (st q) = isOngoing (st p) ∧
  username (st q) = username (st p) ∧
  conversationHistory (st q) = conversationHistory (st p) ∧
  topic (st q) = topic (st p) ∧
  inputDisabled q = inputDisabled p ∧ calls q = calls p ∧
  llmPersonalities q = llmPersonalities p.
Proof.
  unfold continueConversation.
  destruct (isPaused (st p) || negb (isOngoing (st p))); [done|].
  pose proof (getNextSpeaker_frame (st p)) as H.
  destruct (getNextSpeaker (st p)) as [[sp|] s1]; simpl in H;
    [destruct (falsy sp)|]; simpl; destruct H as (H1 & H2 & H3 & H4 & H5);
    by rewrite ?H1, ?H2, ?H3, ?H4, ?H5.
Qed.

(** A click on Resume: the flags, and the one turn that starts. *)
Lemma togglePause_resume (p : page) :
  isPaused (st p) = true → isOngoing (st p) = true →
  let p' := togglePause p in
  isPaused (st p') = false ∧ inputDisabled p' = false ∧
  conversationHistory (st p') = conversationHistory (st p) ∧
  calls p' = calls p ∧
  match (getNextSpeaker (st p)).1 with
  | Some speaker =>
      speaker ≠ ""%string →
      thinking p' = thinking p ++ [speaker] ∧
      timers p' = <[nextTimer p := ResponseTimer speaker (nextNode p)]> (timers p)
  | None => thinking p' = thinking p ∧ timers p' = timers p
  end.
Proof.
  intros Hp Hon p'. subst p'. unfold togglePause. rewrite Hp. simpl negb. cbv iota.
  set (p1 := set_inputDisabled false (set_st (set_isPaused false (st p)) p)).
  destruct (continueConversation_frame p1) as (H1 & _ & _ & H4 & _ & H6 & H7 & _).
  destruct (continueConversation_active p1 eq_refl Hon) as (_ & _ & Hnext).
  split; [by rewrite H1|]. split; [by rewrite H6|].
  split; [by rewrite H4|]. split; [by rewrite H7|].
  by rewrite (getNextSpeaker_same_schedule (st p) (st p1)).
Qed.

End PauseResume.

(** X7: a click on Resume in a paused conversation. [togglePause] clears the
    pause flag, enables the input, leaves the history and the calls in
    flight as they are, and starts one turn: the next speaker of the
    schedule gets a thinking indicator and a response timer, and no other
    timer is set. *)
Theorem resume_starts_exactly_one_turn (p : Script.page) :
  Script.isPaused (Script.st p) = true → Script.isOngoing (Script.st p) = true →
  let p' := Script.togglePause p in
  Script.isPaused (Script.st p') = false ∧ Script.inputDisabled p' = false ∧
  Script.conversationHistory (Script.st p') = Script.conversationHistory (Script.st p) ∧
  Script.calls p' = Script.calls p ∧
  match (Script.getNextSpeaker (Script.st p)).1 with
  | Some speaker =>
      speaker ≠ ""%string →
      Script.thinking p' = Script.thinking p ++ [speaker] ∧
      Script.timers p' =
        <[Script.nextTimer p := Script.ResponseTimer speaker (Script.nextNode p)]>
          (Script.timers p)
  | None =>
      Script.thinking p' = Script.thinking p ∧ Script.timers p' = Script.timers p
  end.
Proof. apply togglePause_resume. Qed.

Lemma resume_starts_exactly_one_turn_witness :
  let p := Script.step Script.ClickPauseResume (Script.run Script.started Script.initial_page) in
  Script.isPaused (Script.st (Script.togglePause p)) = false ∧
  Script.thinking (Script.togglePause p) = ["Claude"; "ChatGPT"].
Proof.
  intros p.
  destruct (resume_starts_exactly_one_turn p
              ltac:(vm_compute; reflexivity) ltac:(vm_compute; reflexivity))
    as (H1 & _ & _ & _ & H5).
  split; [exact H1|].
  assert (E : (Script.getNextSpeaker (Script.st p)).1 = Some "ChatGPT"%string)
    by (vm_compute; reflexivity).
  rewrite E in H5. destruct (H5 ltac:(discriminate)) as [Hth _].
  rewrite Hth. vm_compute. reflexivity.
Defined.

(** X8: pausing while a response timer is pending, then resuming. The pause
    clears the timer (if it fires nevertheless, nothing happens) but keeps
    the thinking indicator of the pending speaker and the cursor, which was
    already advanced; the resume therefore starts the turn of the speaker
    after the pending one, whose own turn is skipped. *)
Theorem pause_then_resume_skips_pending_speaker
    (p : Script.page) (h tm : nat) (pendingSpeaker : string) :
  Script.isPaused (Script.st p) = false → Script.isOngoing (Script.st p) = true →
  Script.responseTimeout (Script.st p) = Some h →
  Script.timers p !! h = Some (Script.ResponseTimer pendingSpeaker tm) →
  let p1 := Script.togglePause p in
  let p2 := Script.togglePause p1 in
  (Script.isPaused (Script.st p1) = true ∧
   Script.timers p1 = delete h (Script.timers p) ∧
   Script.step (Script.TimerFires h) p1 = p1 ∧
   Script.thinking p1 = Script.thinking p ∧
   Script.currentSpeakerIndex (Script.st p1) = Script.currentSpeakerIndex (Script.st p)) ∧
  match (Script.getNextSpeaker (Script.st p)).1 with
  | Some next =>
      next ≠ ""%string →
      Script.thinking p2 = Script.thinking p ++ [next] ∧
      Script.timers p2 =
        <[Script.nextTimer p := Script.ResponseTimer next (Script.nextNode p)]>
          (delete h (Script.timers p))
  | None => Script.thinking p2 = Script.thinking p
  end.
Proof.
  intros Hp Hon Hrt Hh p1 p2.
  assert (E1 : p1 =
    Script.set_st (Script.set_responseTimeout None
                     (Script.set_isPaused true (Script.st p)))
      (Script.clearTimeout h
         (Script.set_inputDisabled true
            (Script.set_st (Script.set_isPaused true (Script.st p)) p)))).
  { unfold p1, Script.togglePause. rewrite Hp. simpl. by rewrite Hrt. }
  assert (Ht1 : Script.timers p1 = delete h (Script.timers p)) by (by rewrite E1).
  split.
  - split; [by rewrite E1|]. split; [done|].
    split; [|split; by rewrite E1].
    simpl. by rewrite Ht1, lookup_delete_eq.
  - destruct (togglePause_resume p1) as (_ & _ & _ & _ & Hnext);
      [by rewrite E1|by rewrite E1|]. fold p2 in Hnext.
    rewrite (getNextSpeaker_same_schedule (Script.st p) (Script.st p1))
      by (by rewrite E1).
    destruct (Script.getNextSpeaker (Script.st p1)).1 as [next|].
    + intros Hne. destruct (Hnext Hne) as [Hth Htm].
      rewrite Hth, Htm, Ht1. by rewrite E1.
    + destruct Hnext as [Hth _]. rewrite Hth. by rewrite E1.
Qed.

Lemma pause_then_resume_skips_pending_speaker_witness :
  let p := Script.run Script.started Script.initial_page in
  Script.thinking p = ["Claude"] ∧
  Script.step (Script.TimerFires 1) (Script.togglePause p) = Script.togglePause p ∧
  Script.thinking (Script.togglePause (Script.togglePause p)) = ["Claude"; "ChatGPT"].
Proof.
  intros p.
  destruct (pause_then_resume_skips_pending_speaker p 1 1 "Claude"
              ltac:(vm_compute; reflexivity) ltac:(vm_compute; reflexivity)
              ltac:(vm_compute; reflexivity) ltac:(vm_compute; reflexivity))
    as ((_ & _ & H3 & _) & H5).
  split; [vm_compute; reflexivity|]. split; [exact H3|].
  assert (E : (Script.getNextSpeaker (Script.st p)).1 = Some "ChatGPT"%string)
    by (vm_compute; reflexivity).
  rewrite E in H5. destruct (H5 ltac:(discriminate)) as [Hth _].
  rewrite Hth. vm_compute. reflexivity.
Defined.

Section History.
Import Script.

Lemma step_history_grows (i : input) (p : page) :
  is_start i = false →
  conversationHistory (st p) `prefix_of` conversationHistory (st (step i p)).
Proof.
  intros Hi. destruct i as [checked tv random| | |n k e|value|h|c r]; [done|..].
  - change (step _ p) with (togglePause p). unfold togglePause.
    destruct (negb (isPaused (st p))).
    + simpl. by destruct (responseTimeout (st p)).
    + match goal with |- context [continueConversation ?q] =>
        destruct (continueConversation_frame q) as (_ & _ & _ & -> & _) end.
      done.
  - change (step _ p) with (restartConversation p). unfold restartConversation.
    by destruct (responseTimeout (st p)).
  - change (step _ p) with (addCustomLlm n k e p). unfold addCustomLlm.
    destruct (falsy (trim n) || falsy (trim k)); [done|]. simpl.
    by destruct (isOngoing (st p)).
  - change (step _ p) with (handleUserMessage value p). unfold handleUserMessage.
    destruct (falsy (trim value) || negb (isOngoing (st p)) || isPaused (st p)); [done|].
    match goal with |- context [continueConversation ?q] =>
      destruct (continueConversation_frame q) as (_ & _ & _ & -> & _) end.
    simpl. by eexists.
  - simpl. destruct (timers p !! h) as [[sp tm|]|]; [done| |done].
    unfold pace_callback. destruct (_ && _); [|done].
    destruct (continueConversation_frame (clearTimeout h p)) as (_ & _ & _ & -> & _).
    done.
  - simpl. destruct (calls p !! c); [|done]. simpl. by eexists.
Qed.

End History.

(** X9: between two starts the conversation history only grows: no event
    other than a click on Start removes or changes an entry, so the history
    before is a prefix of the history after. In particular neither a pause
    nor a restart clears it. *)
Theorem history_is_append_only (evs : list Script.input) (p : Script.page) :
  Forall (λ i, Script.is_start i = false) evs →
  Script.conversationHistory (Script.st p)
    `prefix_of` Script.conversationHistory (Script.st (Script.run evs p)).
Proof.
  induction evs as [|i evs IH] using rev_ind; intros H; [done|].
  apply Forall_app in H as [H1 H2]. apply Forall_inv in H2.
  rewrite run_snoc. etrans; [by apply IH|]. apply step_history_grows, H2.
Qed.

Lemma history_is_append_only_witness :
  let p := Script.run Script.started Script.initial_page in
  let evs :=
    [Script.TimerFires 1; Script.CallSettles 0 (Script.Content "Hi");
     Script.ClickRestart] in
  Script.conversationHistory (Script.st p)
    `prefix_of` Script.conversationHistory (Script.st (Script.run evs p)).
Proof.
  intros p evs. apply (history_is_append_only evs p).
  repeat constructor.
Defined.

Section Stale.
Import Script.

Lemma restartConversation_frame (p : page) :
  calls (restartConversation p) = calls p ∧
  username (st (restartConversation p)) = username (st p).
Proof. unfold restartConversation. by destruct (responseTimeout (st p)). Qed.

Lemma startConversation_fresh_history checked tv random (p : page) :
  let q := startConversation checked tv random p in
  conversationHistory (st q) =
    [Message (username (st p)) ("Let's discuss this topic: " +:+ trim tv)] ∧
  calls q = calls p ∧ isOngoing (st q) = true ∧ isPaused (st q) = false.
Proof.
  unfold startConversation.
  destruct (continueConversation_frame (startConversation_setup checked tv random p))
    as (-> & -> & _ & -> & _ & _ & -> & _).
  done.
Qed.

End Stale.

(** X10: a call in flight survives a restart. When the conversation is
    restarted and a new one started while a provider call is pending, the
    reply of the old call is appended to the history of the new conversation
    when it settles, right after the new opening message. *)
Theorem stale_reply_enters_next_conversation
    (p : Script.page) (c : nat) (cl : Script.call) (r : Script.completion)
    (checked : list string) (topicValue : string) (random : nat → Script.draw) :
  Script.calls p !! c = Some cl →
  let p' :=
    Script.run [Script.ClickRestart;
                Script.ClickStart checked topicValue random;
                Script.CallSettles c r] p in
  Script.conversationHistory (Script.st p') =
    [Script.Message (Script.username (Script.st p))
       ("Let's discuss this topic: " +:+ trim topicValue);
     Script.Message (Script.call_llm cl)
       (Script.generateResponse_result (Script.call_llm cl) r)].
Proof.
  intros Hc p'. subst p'.
  change (Script.run [?a; ?b; ?d] p) with (Script.step d (Script.step b (Script.step a p))).
  change (Script.step Script.ClickRestart p) with (Script.restartConversation p).
  destruct (restartConversation_frame p) as [Hcalls Huser].
  set (p1 := Script.restartConversation p) in *.
  change (Script.step (Script.ClickStart checked topicValue random) p1)
    with (Script.startConversation checked topicValue random p1).
  destruct (startConversation_fresh_history checked topicValue random p1)
    as (Hh & Hc2 & _).
  set (p2 := Script.startConversation checked topicValue random p1) in *.
  destruct (call_settles_commits c cl r p2) as (Hh3 & _).
  { by rewrite Hc2, Hcalls. }
  rewrite Hh3, Hh, Huser. done.
Qed.

Lemma stale_reply_enters_next_conversation_witness :
  let p := Script.run (Script.started ++ [Script.TimerFires 1]) Script.initial_page in
  let p' :=
    Script.run
      [Script.ClickRestart;
       Script.ClickStart ["ChatGPT"; "Gemini"] "tea" (λ _, Script.Draw 0 1 eq_refl);
       Script.CallSettles 0 (Script.Content "Cats, of course.")] p in
  Script.conversationHistory (Script.st p') =
    [Script.Message "User" "Let's discuss this topic: tea";
     Script.Message "Claude" "Cats, of course."].
Proof.
  intros p p'.
  assert (E : ∃ cl, Script.calls p !! 0 = Some cl ∧ Script.call_llm cl = "Claude"%string)
    by (vm_compute; eexists; split; reflexivity).
  destruct E as (cl & E & Hl). subst p'.
  rewrite (stale_reply_enters_next_conversation p 0 cl (Script.Content "Cats, of course.")
             ["ChatGPT"; "Gemini"] "tea" (λ _, Script.Draw 0 1 eq_refl) E).
  rewrite Hl. vm_compute. reflexivity.
Defined.

Section Idle.
Import Script.

Lemma thinking_update_le (tm : nat) (response : string) (p : page) :
  length (thinking (update_thinkingMsg tm response p)) ≤ length (thinking p).
Proof.
  unfold thinking, update_thinkingMsg. simpl. rewrite !length_map.
  induction (chatContainer p) as [|d l IH]; [done|].
  simpl. destruct (d.1 =? tm).
  - rewrite filter_cons_False by (simpl; discriminate).
    destruct (decide (div_thinking d.2 = true)).
    + rewrite filter_cons_True by done. simpl. lia.
    + by rewrite filter_cons_False.
  - destruct (decide (div_thinking d.2 = true)).
    + rewrite !filter_cons_True by done. simpl. lia.
    + by rewrite !filter_cons_False.
Qed.

Lemma step_idle (i : input) (p : page) :
  quiet i = true → idle p = true →
  idle (step i p) = true ∧
  currentSpeakerIndex (st (step i p)) = currentSpeakerIndex (st p) ∧
  length (thinking (step i p)) ≤ length (thinking p) ∧
  pending_responses (step i p) ≤ pending_responses p.
Proof.
  intros Hq Hi. unfold idle in *.
  destruct i as [checked tv random| | |n k e|value|h|c r]; try done.
  - change (step _ p) with (restartConversation p). unfold restartConversation.
    destruct (responseTimeout (st p)) as [h|]; simpl; [|done].
    repeat apply conj; [done|done|done|]. apply count_delete_le.
  - change (step _ p) with (addCustomLlm n k e p). unfold addCustomLlm.
    destruct (falsy (trim n) || falsy (trim k)); [done|]. simpl.
    destruct (isOngoing (st p)) eqn:E; simpl; rewrite ?E; [|done].
    repeat apply conj; [done|done| |done].
    unfold thinking. simpl. rewrite filter_app, length_map, length_map, length_app.
    simpl. lia.
  - change (step _ p) with (handleUserMessage value p). unfold handleUserMessage.
    replace (falsy (trim value) || negb (isOngoing (st p)) || isPaused (st p))
      with true; [done|].
    destruct (isPaused (st p)), (isOngoing (st p)), (falsy (trim value)); done.
  - simpl. destruct (timers p !! h) as [[sp tm|]|]; [| |done].
    + simpl. repeat apply conj; [done|done|done|]. apply count_delete_le.
    + unfold pace_callback. simpl.
      replace (isOngoing (st p) && negb (isPaused (st p))) with false
        by (destruct (isPaused (st p)), (isOngoing (st p)); done).
      simpl. repeat apply conj; [done|done|done|]. apply count_delete_le.
  - simpl. destruct (calls p !! c) as [cl|]; [|done]. simpl.
    repeat apply conj; [done|done| |].
    + apply (thinking_update_le (call_thinkingMsg cl) _ (set_calls (delete c (calls p)) p)).
    + unfold pending_responses. simpl. rewrite count_insert_le. simpl. lia.
Qed.

End Idle.

(** X11: while the conversation is paused or not under way, nothing but a
    click on Start or on Resume starts a turn: under messages, saved
    participants, restarts, timers that fire and calls that settle, the
    conversation stays idle, the cursor does not move, and neither the
    number of thinking indicators nor the number of pending response timers
    grows. *)
Theorem idle_conversation_starts_no_turn (evs : list Script.input) (p : Script.page) :
  Script.idle p = true →
  Forall (λ i, Script.quiet i = true) evs →
  let p' := Script.run evs p in
  Script.idle p' = true ∧
  Script.currentSpeakerIndex (Script.st p') = Script.currentSpeakerIndex (Script.st p) ∧
  length (Script.thinking p') ≤ length (Script.thinking p) ∧
  Script.pending_responses p' ≤ Script.pending_responses p.
Proof.
  intros Hi. induction evs as [|i evs IH] using rev_ind; intros H p'; [done|].
  apply Forall_app in H as [H1 H2]. apply Forall_inv in H2.
  destruct (IH H1) as (I1 & I2 & I3 & I4).
  subst p'. rewrite run_snoc.
  destruct (step_idle i (Script.run evs p) H2 I1) as (J1 & J2 & J3 & J4).
  split; [done|]. split; [congruence|]. split; lia.
Qed.

Lemma idle_conversation_starts_no_turn_witness :
  let p := Script.step Script.ClickPauseResume (Script.run Script.started Script.initial_page) in
  let evs :=
    [Script.SendMessage "hi"; Script.TimerFires 1;
     Script.SaveCustomLlm "Bob" "key" ""] in
  Script.idle (Script.run evs p) = true ∧
  Script.currentSpeakerIndex (Script.st (Script.run evs p)) = 1.
Proof.
  intros p evs.
  destruct (idle_conversation_starts_no_turn evs p ltac:(vm_compute; reflexivity))
    as (H1 & H2 & _).
  { repeat constructor. }
  split; [exact H1|]. rewrite H2. vm_compute. reflexivity.
Defined.

Section Sides.
Import Script.






End Sides.


Section Membership.
Import Server.

Lemma next_llm_frame (t : nat) (c content u : string) (rest : list string) (m : manager) :
  activeChats (next_llm t c content u rest m) = activeChats m ∧
  nextAwait (next_llm t c content u rest m) = nextAwait m ∧
  userSockets (next_llm t c content u rest m) = userSockets m.
Proof. by destruct rest. Qed.

(** Resuming a loop of [handleUserMessage] or an [updateChatStatus] leaves
    the table of chats alone; only a settled [joinChat] writes it. *)
Lemma resume_frame (t : nat) (k : continuation) (r : result) (m : manager) :
  nextAwait (resume t k r m) = nextAwait m ∧
  (activeChats (resume t k r m) = activeChats m ∨
   ∃ userId chatId st l,
     k = AwaitGetChat userId chatId ∧
     activeChats (resume t k r m) =
       <[chatId := ChatData (default active st) {[userId]} l]> (activeChats m)).
Proof.
  destruct k as [u c0|c0 content l|c0 content username llm rest
                 |c0 content username llm response rest|c0 st];
    destruct r as [chat|profile|o|saved|success|]; simpl;
    try (split; [done|by left]).
  - destruct chat as [[st l]|]; simpl; [|split; [done|by left]].
    split; [done|]. right. by exists u, c0, st, l.
  - unfold handleUserMessage_profile.
    destruct (next_llm_frame t c0 content
                match profile with Some u => if falsy u then "User"%string else u
                                 | None => "User"%string end l m) as (-> & -> & _).
    split; [done|by left].
  - unfold handleUserMessage_generated.
    destruct (negb (is_active c0 m)); split; try done; by left.
  - unfold handleUserMessage_catch.
    match goal with |- context [next_llm ?a ?b ?c ?d ?e ?f] =>
      destruct (next_llm_frame a b c d e f) as (-> & -> & _) end.
    split; [done|by left].
  - unfold handleUserMessage_saved. destruct saved as [[i ts]|]; [|split; [done|by left]].
    match goal with |- context [next_llm ?a ?b ?c ?d ?e ?f] =>
      destruct (next_llm_frame a b c d e f) as (-> & -> & _) end.
    split; [done|by left].
  - unfold handleUserMessage_catch.
    match goal with |- context [next_llm ?a ?b ?c ?d ?e ?f] =>
      destruct (next_llm_frame a b c d e f) as (-> & -> & _) end.
    split; [done|by left].
  - destruct success; split; try done; by left.
Qed.

Lemma drop_user_nonempty (u : string) (cd cd' : chatData) :
  drop_user u cd = Some cd' → users cd' ≠ ∅.
Proof.
  unfold drop_user. destruct (decide (users cd ∖ {[u]} = ∅)); [done|].
  by intros [= <-].
Qed.

Lemma step_users_nonempty (i : input) (m : manager) :
  users_nonempty m → users_nonempty (step i m).
Proof.
  unfold users_nonempty. intros H.
  destruct i as [u|u c0|u c0|u msg|c0|c0|c0|u|t r].
  - done.
  - simpl. unfold joinChat. destruct (activeChats m !! c0) as [cd|] eqn:E; simpl; [|done].
    apply map_Forall_insert_2; [|done]. simpl. set_solver.
  - simpl. unfold leaveChat. destruct (activeChats m !! c0) as [cd|] eqn:E; [|done].
    destruct (drop_user u cd) as [cd'|] eqn:D; simpl.
    + apply map_Forall_insert_2; [|done]. by eapply drop_user_nonempty.
    + by apply map_Forall_delete.
  - simpl. unfold handleUserMessage.
    destruct (is_user msg && is_active (chat_id msg) (emit _ m)); [|done].
    simpl. by destruct (activeChats m !! chat_id msg).
  - simpl. unfold updateChatStatus. destruct (activeChats m !! c0) as [cd|] eqn:E; [|done].
    simpl. apply map_Forall_insert_2; [|done]. simpl. by apply (H c0 cd).
  - simpl. unfold updateChatStatus. destruct (activeChats m !! c0) as [cd|] eqn:E; [|done].
    simpl. apply map_Forall_insert_2; [|done]. simpl. by apply (H c0 cd).
  - simpl. unfold updateChatStatus. destruct (activeChats m !! c0) as [cd|] eqn:E; [|done].
    simpl. apply map_Forall_insert_2; [|done]. simpl. by apply (H c0 cd).
  - simpl. intros c cd. rewrite lookup_omap.
    destruct (activeChats m !! c) as [cd0|] eqn:E; simpl; [|done].
    destruct (decide (u ∈ users cd0)).
    + apply drop_user_nonempty.
    + intros [= <-]. by apply (H c cd0).
  - simpl. destruct (awaiting m !! t) as [k|]; [|done].
    destruct (resume_frame t k r (finish t m)) as [_ [-> | (u & c & st & l & _ & ->)]].
    + done.
    + simpl. apply map_Forall_insert_2; [|done]. simpl. set_solver.
Qed.

End Membership.

(** X13: the coordinator never tracks a chat without users: after any
    sequence of socket events and settled calls, every chat in [activeChats]
    has at least one user in its set. *)
Theorem tracked_chats_have_users (evs : list Server.input) :
  ∀ chatId cd,
    Server.activeChats (Server.run evs Server.initial_manager) !! chatId = Some cd →
    ∃ userId, userId ∈ Server.users cd.
Proof.
  assert (H : Server.users_nonempty (Server.run evs Server.initial_manager)).
  { induction evs as [|i evs IH] using rev_ind.
    - apply map_Forall_empty.
    - rewrite run_snoc_server. by apply step_users_nonempty. }
  intros chatId cd Hcd. apply set_choose_L. by apply (H chatId cd).
Qed.

Lemma tracked_chats_have_users_witness :
  ∃ userId,
    userId ∈ Server.users (Server.ChatData Server.active {["u1"]} ["ChatGPT"; "Claude"]).
Proof.
  assert (Hcd : Server.activeChats (Server.run Server.joined Server.initial_manager) !! "c1" =
                Some (Server.ChatData Server.active {["u1"]} ["ChatGPT"; "Claude"]))
    by (vm_compute; reflexivity).
  exact (tracked_chats_have_users Server.joined "c1" _ Hcd).
Defined.

(** X14: [removeUserSocket] on a disconnect. The user is in no socket table
    and in no chat afterwards; a chat that is still tracked was tracked
    before with the same status and participants and has lost at most this
    user; a chat with another user stays tracked; nothing is emitted and no
    suspended call is touched. *)
Theorem removeUserSocket_forgets_the_user (userId : string) (m : Server.manager) :
  let m' := Server.removeUserSocket userId m in
  (userId ∉ Server.userSockets m') ∧
  (∀ chatId cd, Server.activeChats m' !! chatId = Some cd →
     (userId ∉ Server.users cd) ∧
     ∃ cd0, Server.activeChats m !! chatId = Some cd0 ∧
            Server.users cd = Server.users cd0 ∖ {[userId]} ∧
            Server.chat_status cd = Server.chat_status cd0 ∧
            Server.llms cd = Server.llms cd0) ∧
  (∀ chatId cd0, Server.activeChats m !! chatId = Some cd0 →
     Server.users cd0 ∖ {[userId]} ≠ ∅ →
     is_Some (Server.activeChats m' !! chatId)) ∧
  Server.emits m' = Server.emits m ∧ Server.awaiting m' = Server.awaiting m.
Proof.
  intros m'. subst m'. unfold Server.removeUserSocket. simpl.
  split; [rewrite not_elem_of_difference; right; by apply elem_of_singleton|].
  split; [|split; [|done]].
  - intros c cd. rewrite lookup_omap.
    destruct (Server.activeChats m !! c) as [cd0|]; simpl; [|done].
    destruct (decide (userId ∈ Server.users cd0)) as [Hin|Hin].
    + unfold Server.drop_user.
      destruct (decide (Server.users cd0 ∖ {[userId]} = ∅)); [done|].
      intros [= <-]. simpl.
      split; [rewrite not_elem_of_difference; right; by apply elem_of_singleton|].
      by exists cd0.
    + intros [= <-]. split; [done|]. exists cd0. repeat split.
      symmetry. apply difference_disjoint_L. by apply disjoint_singleton_r.
  - intros c cd0 Hcd0 Hne. rewrite lookup_omap, Hcd0. simpl.
    destruct (decide (userId ∈ Server.users cd0)); [|by eexists].
    unfold Server.drop_user. rewrite decide_False by done. by eexists.
Qed.

Section Joins.
Import Server.

Lemma joinChat_untracked (u c : string) (m : manager) :
  activeChats m !! c = None →
  joinChat u c m = suspend (nextAwait m) (AwaitGetChat u c) (fresh m).2.
Proof. intros H. unfold joinChat. by rewrite H. Qed.

End Joins.

(** X15: joining a chat that is not tracked and leaving it again. Once the
    store has answered with the chat, it is tracked with the status of the
    store ([active] when the store has none), the joining user alone and the
    participants of the store; when that user leaves, the table of chats is
    what it was before. A chat that the store does not find is never
    tracked. *)
Theorem join_then_leave_restores_chats
    (m : Server.manager) (userId chatId : string)
    (st : option Server.status) (l : list string) :
  Server.activeChats m !! chatId = None →
  let t := Server.nextAwait m in
  let joined :=
    Server.run [Server.OnJoin userId chatId;
                Server.Settles t (Server.GotChat (Some (st, l)))] m in
  Server.activeChats joined !! chatId =
    Some (Server.ChatData (default Server.active st) {[userId]} l) ∧
  Server.activeChats (Server.step (Server.OnLeave userId chatId) joined) =
    Server.activeChats m ∧
  Server.activeChats
    (Server.run [Server.OnJoin userId chatId; Server.Settles t (Server.GotChat None)] m) =
    Server.activeChats m.
Proof.
  intros Hc t joined.
  assert (E : Server.activeChats joined =
              <[chatId := Server.ChatData (default Server.active st) {[userId]} l]>
                (Server.activeChats m)).
  { subst joined.
    change (Server.run [?a; ?b] m) with (Server.step b (Server.step a m)).
    change (Server.step (Server.OnJoin userId chatId) m)
      with (Server.joinChat userId chatId m).
    rewrite joinChat_untracked by done. simpl. fold t.
    by rewrite lookup_insert_eq. }
  split; [by rewrite E, lookup_insert_eq|]. split.
  - simpl. unfold Server.leaveChat. rewrite E, lookup_insert_eq.
    unfold Server.drop_user. simpl.
    rewrite decide_True by apply difference_diag_L. simpl.
    rewrite delete_insert_eq. by apply delete_id.
  - change (Server.run [?a; ?b] m) with (Server.step b (Server.step a m)).
    change (Server.step (Server.OnJoin userId chatId) m)
      with (Server.joinChat userId chatId m).
    rewrite joinChat_untracked by done. simpl. fold t.
    by rewrite lookup_insert_eq.
Qed.

Lemma join_then_leave_restores_chats_witness :
  let m := Server.run [Server.OnConnect "u1"] Server.initial_manager in
  let joined :=
    Server.run
      [Server.OnJoin "u1" "c1";
       Server.Settles 0 (Server.GotChat (Some (None, ["ChatGPT"; "Claude"])))] m in
  Server.activeChats joined !! "c1" =
    Some (Server.ChatData Server.active {["u1"]} ["ChatGPT"; "Claude"]) ∧
  Server.activeChats (Server.step (Server.OnLeave "u1" "c1") joined) = Server.activeChats m.
Proof.
  intros m joined.
  destruct (join_then_leave_restores_chats m "u1" "c1" None ["ChatGPT"; "Claude"]
              ltac:(vm_compute; reflexivity)) as (H1 & H2 & _).
  split; [exact H1 | exact H2].
Defined.

(** X16: two users join the same untracked chat before the store answers
    either request. Both requests go to the store, and the second answer
    overwrites the entry that the first one made: the chat ends with the
    second user alone, and when that user leaves, the chat is no longer
    tracked although the first user never left. *)
Theorem racing_joins_keep_only_the_last
    (m : Server.manager) (u1 u2 chatId : string)
    (st1 st2 : option Server.status) (l1 l2 : list string) :
  Server.activeChats m !! chatId = None →
  let t := Server.nextAwait m in
  let m' :=
    Server.run [Server.OnJoin u1 chatId; Server.OnJoin u2 chatId;
                Server.Settles t (Server.GotChat (Some (st1, l1)));
                Server.Settles (S t) (Server.GotChat (Some (st2, l2)))] m in
  Server.activeChats m' !! chatId =
    Some (Server.ChatData (default Server.active st2) {[u2]} l2) ∧
  (u1 ≠ u2 →
   Server.activeChats (Server.step (Server.OnLeave u2 chatId) m') !! chatId = None).
Proof.
  intros Hc t m'.
  assert (E : Server.activeChats m' =
              <[chatId := Server.ChatData (default Server.active st2) {[u2]} l2]>
                (<[chatId := Server.ChatData (default Server.active st1) {[u1]} l1]>
                   (Server.activeChats m))).
  { subst m'.
    change (Server.run [?a; ?b; ?c; ?d] m)
      with (Server.step d (Server.step c (Server.step b (Server.step a m)))).
    change (Server.step (Server.OnJoin u1 chatId) m)
      with (Server.joinChat u1 chatId m).
    rewrite joinChat_untracked by done.
    set (m1 := Server.suspend _ _ _).
    change (Server.step (Server.OnJoin u2 chatId) m1)
      with (Server.joinChat u2 chatId m1).
    rewrite joinChat_untracked by done.
    simpl. fold t.
    rewrite lookup_insert_ne by lia. rewrite lookup_insert_eq. simpl.
    rewrite lookup_delete_ne by lia. rewrite lookup_insert_eq. done. }
  split; [by rewrite E, lookup_insert_eq|].
  intros Hne. simpl. unfold Server.leaveChat. rewrite E, lookup_insert_eq.
  unfold Server.drop_user. simpl.
  rewrite decide_True by apply difference_diag_L. simpl. apply lookup_delete_eq.
Qed.

Lemma racing_joins_keep_only_the_last_witness :
  let chat := Server.GotChat (Some (Some Server.active, ["ChatGPT"; "Claude"])) in
  let m' :=
    Server.run
      [Server.OnJoin "u1" "c1"; Server.OnJoin "u2" "c1";
       Server.Settles 0 chat; Server.Settles 1 chat] Server.initial_manager in
  Server.activeChats m' !! "c1" =
    Some (Server.ChatData Server.active {["u2"]} ["ChatGPT"; "Claude"]) ∧
  Server.activeChats (Server.step (Server.OnLeave "u2" "c1") m') !! "c1" = None.
Proof.
  intros chat m'.
  destruct (racing_joins_keep_only_the_last Server.initial_manager "u1" "u2" "c1"
              (Some Server.active) (Some Server.active)
              ["ChatGPT"; "Claude"] ["ChatGPT"; "Claude"]
              ltac:(vm_compute; reflexivity)) as (H1 & H2).
  split; [exact H1 | apply H2; discriminate].
Defined.

Section Handles.
Import Server.

Lemma step_handles_fresh (i : input) (m : manager) :
  handles_fresh m → handles_fresh (step i m).
Proof.
  unfold handles_fresh. intros H.
  assert (Hins : ∀ (m0 : manager) k0,
    awaiting m0 = awaiting m → nextAwait m0 = nextAwait m →
    ∀ t k, awaiting (suspend (nextAwait m0) k0 (fresh m0).2) !! t = Some k →
           t < nextAwait (suspend (nextAwait m0) k0 (fresh m0).2)).
  { intros m0 k0 Ha Hn t k. simpl. rewrite Ha, Hn.
    intros [[<- _]|[_ Hk]]%lookup_insert_Some; [lia|].
    specialize (H t k Hk). lia. }
  destruct i as [u|u c0|u c0|u msg|c0|c0|c0|u|t r]; simpl.
  - done.
  - unfold joinChat. destruct (activeChats m !! c0); [done|]. by apply Hins.
  - unfold leaveChat. destruct (activeChats m !! c0) as [cd|]; [|done].
    by destruct (drop_user u cd).
  - unfold handleUserMessage.
    destruct (is_user msg && is_active (chat_id msg) (emit _ m)); [|done].
    simpl. destruct (activeChats m !! chat_id msg); [|done]. by apply Hins.
  - unfold updateChatStatus. destruct (activeChats m !! c0); [|done]. by apply Hins.
  - unfold updateChatStatus. destruct (activeChats m !! c0); [|done]. by apply Hins.
  - unfold updateChatStatus. destruct (activeChats m !! c0); [|done]. by apply Hins.
  - done.
  - destruct (awaiting m !! t) as [k|] eqn:Ht; [|done].
    destruct (resume_frame t k r (finish t m)) as [Hn _].
    intros t' k'. rewrite Hn. simpl.
    destruct (resume_awaiting t k r (finish t m)) as [-> | (k2 & -> & _)]; simpl.
    + intros [_ Hk]%lookup_delete_Some. by apply (H t' k').
    + intros [[<- _]|[_ [_ Hk]%lookup_delete_Some]]%lookup_insert_Some.
      * by apply (H t k).
      * by apply (H t' k').
Qed.

Lemma run_handles_fresh (evs : list input) : handles_fresh (run evs initial_manager).
Proof.
  induction evs as [|i evs IH] using rev_ind.
  - intros t k Hk. simpl in Hk. by rewrite lookup_empty in Hk.
  - rewrite run_snoc_server. by apply step_handles_fresh.
Qed.

End Handles.

(** X17: a pause that arrives while a reply is being saved. The status is
    checked only after the provider call, so when the save returns the reply
    is broadcast, the next participant is announced as thinking and its call
    is made although the chat is paused; only the reply of that call is
    dropped, and the loop ends there. *)
Theorem pause_during_save_acts_one_turn_late
    (evs : list Server.input) (t : nat)
    (chatId content username llm response next : string) (rest : list string)
    (cd : Server.chatData) (i : nat) (ts : string) (o : Server.call_outcome) :
  let m := Server.run evs Server.initial_manager in
  Server.awaiting m !! t =
    Some (Server.AwaitSave chatId content username llm response (next :: rest)) →
  Server.activeChats m !! chatId = Some cd →
  let m1 :=
    Server.run [Server.OnPause chatId;
                Server.Settles t (Server.GotSaved (Some (i, ts)))] m in
  let m2 := Server.step (Server.Settles t (Server.GotResponse o)) m1 in
  Server.is_active chatId m1 = false ∧
  Server.emits m1 =
    Server.emits m ++
    [Server.EmitMessage chatId
       (Server.Message (Some i) chatId llm response false (Some ts));
     Server.EmitThinking chatId chatId next] ∧
  Server.awaiting m1 !! t =
    Some (Server.AwaitGenerate chatId content username next rest) ∧
  Server.emits m2 = Server.emits m1 ∧
  Server.awaiting m2 !! t = None.
Proof.
  intros m Ht Hcd m1 m2.
  pose proof (run_handles_fresh evs t _ Ht) as Hfresh. fold m in Hfresh.
  assert (E1 : m1 =
    Server.next_llm t chatId content username (next :: rest)
      (Server.emit
         (Server.EmitMessage chatId
            (Server.Message (Some i) chatId llm response false (Some ts)))
         (Server.finish t (Server.updateChatStatus chatId Server.paused m).1))).
  { subst m1.
    change (Server.run [?a; ?b] m) with (Server.step b (Server.step a m)).
    change (Server.step (Server.OnPause chatId) m)
      with (Server.updateChatStatus chatId Server.paused m).1.
    unfold Server.updateChatStatus. rewrite Hcd. simpl.
    rewrite lookup_insert_ne by lia. rewrite Ht. done. }
  assert (Ha : Server.is_active chatId m1 = false).
  { rewrite E1. unfold Server.is_active, Server.updateChatStatus. rewrite Hcd. simpl.
    by rewrite lookup_insert_eq. }
  assert (Haw : Server.awaiting m1 !! t =
                Some (Server.AwaitGenerate chatId content username next rest)).
  { rewrite E1. simpl. apply lookup_insert_eq. }
  split; [exact Ha|]. split.
  - rewrite E1. unfold Server.updateChatStatus. rewrite Hcd. simpl.
    by rewrite <- app_assoc.
  - split; [exact Haw|].
    subst m2. rewrite (inactive_reply_discarded t m1 _ _ _ _ _ o Haw Ha).
    split; [done|]. simpl. apply lookup_delete_eq.
Qed.

Lemma pause_during_save_acts_one_turn_late_witness :
  let evs :=
    Server.joined ++
    [Server.OnMessage "u1" Server.hello;
     Server.Settles 1 (Server.GotProfile (Some "Ann"));
     Server.Settles 1 (Server.GotResponse (Server.Returned "Hi" None))] in
  let m := Server.run evs Server.initial_manager in
  let m1 :=
    Server.run [Server.OnPause "c1";
                Server.Settles 1 (Server.GotSaved (Some (7, "2024-05-01T10:00:00Z"%string)))] m in
  Server.is_active "c1" m1 = false ∧
  Server.awaiting m1 !! 1 = Some (Server.AwaitGenerate "c1" "hello" "Ann" "Claude" []) ∧
  Server.emits (Server.step (Server.Settles 1 (Server.GotResponse (Server.Returned "Hello" None))) m1)
    = Server.emits m1.
Proof.
  intros evs m m1.
  assert (Ht : Server.awaiting m !! 1 =
               Some (Server.AwaitSave "c1" "hello" "Ann" "ChatGPT" "Hi" ["Claude"]))
    by (vm_compute; reflexivity).
  assert (Hcd : Server.activeChats m !! "c1" =
                Some (Server.ChatData Server.active {["u1"]} ["ChatGPT"; "Claude"]))
    by (vm_compute; reflexivity).
  destruct (pause_during_save_acts_one_turn_late evs 1 "c1" "hello" "Ann" "ChatGPT" "Hi"
              "Claude" [] _ 7 "2024-05-01T10:00:00Z" (Server.Returned "Hello" None) Ht Hcd)
    as (H1 & _ & H3 & H4 & _).
  split; [exact H1|]. split; [exact H3 | exact H4].
Defined.

Section Announced.
Import Server.

Lemma announced_ext (m m' : manager) :
  emits m' = emits m → awaiting m' = awaiting m → announced m → announced m'.
Proof. unfold announced. intros -> ->. done. Qed.

Lemma announced_emit (e : emitted) (m : manager) :
  (∀ room msg, e = EmitMessage room msg →
     is_user msg = false → EmitThinking room room (sender msg) ∈ emits m) →
  announced m → announced (emit e m).
Proof.
  intros He [A1 A2]. split.
  - intros t k c llm Hk Hs. simpl. apply elem_of_app. left. by eapply A1.
  - intros n room msg. simpl. intros Hn Hu.
    destruct (decide (n < length (emits m))) as [Hlt|Hge].
    + rewrite lookup_app_l in Hn by done.
      destruct (A2 n room msg Hn Hu) as (j & Hj & Hl).
      exists j. split; [done|]. by rewrite lookup_app_l by lia.
    + rewrite lookup_app_r in Hn by lia.
      destruct (n - length (emits m)) as [|?] eqn:En; [|done].
      simpl in Hn. injection Hn as ->.
      specialize (He room msg eq_refl Hu).
      apply list_elem_of_lookup in He as [j Hj].
      exists j. pose proof (lookup_lt_Some _ _ _ Hj).
      split; [lia|]. by rewrite lookup_app_l by lia.
Qed.

Lemma announced_suspend (t : nat) (k : continuation) (m : manager) :
  (∀ c llm, speaking k = Some (c, llm) → EmitThinking c c llm ∈ emits m) →
  announced m → announced (suspend t k m).
Proof.
  intros Hk [A1 A2]. split; [|done].
  intros t' k' c llm. simpl.
  intros [[<- <-]|[_ H]]%lookup_insert_Some Hs; [by apply Hk | by eapply A1].
Qed.

Lemma announced_finish (t : nat) (m : manager) : announced m → announced (finish t m).
Proof.
  intros [A1 A2]. split; [|done].
  intros t' k' c llm. simpl. intros [_ H]%lookup_delete_Some. by eapply A1.
Qed.

Lemma announced_next_llm (t : nat) (c content u : string) (rest : list string)
    (m : manager) :
  announced m → announced (next_llm t c content u rest m).
Proof.
  intros H. destruct rest as [|llm rest]; [done|]. simpl.
  apply announced_suspend.
  - intros c' llm' [= <- <-]. simpl. apply elem_of_app. right. by apply list_elem_of_singleton.
  - by apply announced_emit.
Qed.

Lemma step_announced (i : input) (m : manager) :
  from_users i = true → announced m → announced (step i m).
Proof.
  intros Hi H.
  destruct i as [u|u c0|u c0|u msg|c0|c0|c0|u|t r]; simpl.
  - by apply (announced_ext m).
  - unfold joinChat. destruct (activeChats m !! c0).
    + by apply (announced_ext m).
    + apply announced_suspend; [done|]. by apply (announced_ext m).
  - unfold leaveChat. destruct (activeChats m !! c0) as [cd|]; [|done].
    destruct (drop_user u cd); by apply (announced_ext m).
  - unfold handleUserMessage. simpl in Hi. rewrite Hi.
    assert (H1 : announced (emit (EmitMessage (chat_id msg) msg) m)).
    { apply announced_emit; [|done]. intros room msg' [= <- <-] Hu. congruence. }
    destruct (true && is_active (chat_id msg) (emit _ m)); [|done].
    simpl. destruct (activeChats m !! chat_id msg); [|done].
    apply announced_suspend; [done|]. by eapply announced_ext; [| |exact H1].
  - unfold updateChatStatus. destruct (activeChats m !! c0); [|done]. simpl.
    apply (announced_suspend (nextAwait m) (AwaitUpdateStatus c0 paused)); [done|].
    by apply (announced_ext m).
  - unfold updateChatStatus. destruct (activeChats m !! c0); [|done]. simpl.
    apply (announced_suspend (nextAwait m) (AwaitUpdateStatus c0 active)); [done|].
    by apply (announced_ext m).
  - unfold updateChatStatus. destruct (activeChats m !! c0); [|done]. simpl.
    apply (announced_suspend (nextAwait m) (AwaitUpdateStatus c0 stopped)); [done|].
    by apply (announced_ext m).
  - by apply (announced_ext m).
  - destruct (awaiting m !! t) as [k|] eqn:Ht; [|done].
    pose proof (announced_finish t m H) as H0.
    assert (Hk : ∀ c llm, speaking k = Some (c, llm) →
                          EmitThinking c c llm ∈ emits (finish t m)).
    { intros c llm Hs. destruct H as [A1 _]. by eapply A1. }
    destruct k as [u c0|c0 content l|c0 content username llm rest
                   |c0 content username llm response rest|c0 st];
      destruct r as [chat|profile|o|saved|success|]; simpl; try done.
    + destruct chat as [[st l]|]; [|done]. by apply (announced_ext (finish t m)).
    + by apply announced_next_llm.
    + unfold handleUserMessage_generated.
      destruct (negb (is_active c0 (finish t m))); [done|].
      apply announced_suspend; [|done]. intros c llm' [= <- <-]. by apply Hk.
    + apply announced_next_llm. by apply announced_emit.
    + destruct saved as [[i ts]|]; [|done].
      apply announced_next_llm. apply announced_emit; [|done].
      intros room msg [= <- <-] _. simpl. by apply Hk.
    + apply announced_next_llm. by apply announced_emit.
    + destruct success; [|done]. by apply announced_emit.
Qed.

End Announced.

(** X18: in the broadcasts of the coordinator, every message that is not a
    user's comes after a thinking status of its sender in the same chat,
    provided the messages that clients send are marked as the user's (a
    message sent with [is_user] false is broadcast as it is, with no status
    before it). *)
Theorem thinking_precedes_every_reply (evs : list Server.input) :
  Forall (λ i, Server.from_users i = true) evs →
  ∀ n room msg,
    Server.emits (Server.run evs Server.initial_manager) !! n
      = Some (Server.EmitMessage room msg) →
    Server.is_user msg = false →
    ∃ j, j < n ∧
         Server.emits (Server.run evs Server.initial_manager) !! j
           = Some (Server.EmitThinking room room (Server.sender msg)).
Proof.
  intros H.
  assert (A : Server.announced (Server.run evs Server.initial_manager)).
  { induction evs as [|i evs IH] using rev_ind.
    - split; intros ? ? ? ?; simpl; by rewrite ?lookup_empty.
    - apply Forall_app in H as [H1 H2]. apply Forall_inv in H2.
      rewrite run_snoc_server. apply step_announced; [done|by apply IH]. }
  apply A.
Qed.

Lemma thinking_precedes_every_reply_witness :
  let evs :=
    [Server.OnConnect "u1"; Server.OnJoin "u1" "c1";
     Server.Settles 0 (Server.GotChat (Some (Some Server.active, ["ChatGPT"; "Claude"])));
     Server.OnMessage "u1" Server.hello;
     Server.Settles 1 (Server.GotProfile (Some "Ann"));
     Server.Settles 1 (Server.GotResponse (Server.Returned "Hi" None));
     Server.Settles 1 (Server.GotSaved (Some (7, "2024-05-01T10:00:00Z"%string)))] in
  ∃ j, j < 2 ∧
       Server.emits (Server.run evs Server.initial_manager) !! j
         = Some (Server.EmitThinking "c1" "c1" "ChatGPT").
Proof.
  intros evs.
  apply (thinking_precedes_every_reply evs
           ltac:(repeat constructor)
           2 "c1"
           (Server.Message (Some 7) "c1" "ChatGPT" "Hi" false (Some "2024-05-01T10:00:00Z"%string))).
  - vm_compute. reflexivity.
  - reflexivity.
Defined.

Section Calls.
Import Server.

Lemma falsy_false (s : string) : falsy s = false ↔ s ≠ ""%string.
Proof. unfold falsy. by destruct (decide (s = ""%string)). Qed.

Lemma first_truthy_nonempty (a b : option string) (fallback : string) :
  fallback ≠ ""%string → first_truthy a b fallback ≠ ""%string.
Proof.
  intros Hf. unfold first_truthy.
  destruct a as [x|], b as [y|];
    repeat match goal with
           | |- context [falsy ?z] => destruct (falsy z) eqn:?
           end;
    try done; by apply falsy_false.
Qed.

(** The call that [generateResponse] makes for a participant of [models]. *)
Lemma generateResponse_with_call (llm provider modelId : string)
    (q : key_query) (h : http_outcome) :
  models !! llm = Some (provider, modelId) →
  ∃ who, who ∈ ["OpenAI"; "Anthropic"; "Google"; "OpenRouter"]%string ∧
         generateResponse_with llm q h =
           generateResponse llm (call_with (who +:+ " API key not found") q h).
Proof.
  intros Hm.
  assert (Hall : map_Forall (λ _ v,
            v.1 = "openai" ∨ v.1 = "anthropic" ∨ v.1 = "google" ∨ v.1 = "openrouter")%string
            models).
  { unfold models. repeat (apply map_Forall_insert_2; [simpl; tauto|]).
    apply map_Forall_empty. }
  unfold generateResponse_with. rewrite Hm.
  destruct (Hall _ _ Hm) as [H|[H|[H|H]]]; simpl in H; subst provider; simpl.
  - exists "OpenAI"%string. split; [set_solver|done].
  - exists "Anthropic"%string. split; [set_solver|done].
  - exists "Google"%string. split; [set_solver|done].
  - exists "OpenRouter"%string. split; [set_solver|done].
Qed.

End Calls.

(** X19: [generateResponse] with the provider call it makes, for a
    participant of [models]. With a key and an answer of the provider, the
    reply is the content of the answer. With a key and a failed request, the
    reply is the apology of the participant with the message of the
    provider, else the message of the error, else [Unknown error], and the
    reason is never empty. Without a usable key (no row, a store error, an
    empty key) no request is made and the reply is the apology with the
    missing key of one of the four providers. *)
Theorem provider_call_ends_in_text_or_apology
    (llm provider modelId : string) (q : Server.key_query) (h : Server.http_outcome) :
  Server.models !! llm = Some (provider, modelId) →
  let reply := Server.generateResponse_with llm q h in
  let apology reason :=
    ("I'm sorry, but " +:+ llm +:+ " encountered an error: " +:+ reason)%string in
  (∀ key endpoint content,
     q = Server.KeyRow (Some key) endpoint → key ≠ ""%string →
     h = Server.HttpOk content → reply = content) ∧
  (∀ key endpoint apiMessage message,
     q = Server.KeyRow (Some key) endpoint → key ≠ ""%string →
     h = Server.HttpFailed apiMessage message →
     reply = apology (first_truthy apiMessage message "Unknown error") ∧
     first_truthy apiMessage message "Unknown error" ≠ ""%string) ∧
  ((Server.getApiKey q).1 = None ∨ (Server.getApiKey q).1 = Some ""%string →
   ∃ who, who ∈ ["OpenAI"; "Anthropic"; "Google"; "OpenRouter"]%string ∧
          reply = apology (who +:+ " API key not found")).
Proof.
  intros Hm reply apology.
  destruct (generateResponse_with_call llm provider modelId q h Hm) as (who & Hwho & E).
  subst reply. rewrite E. unfold Server.call_with.
  split; [|split].
  - intros key endpoint content -> Hk ->. simpl.
    apply falsy_false in Hk. rewrite Hk.
    by rewrite (generateResponse_content _ _ _ _ Hm).
  - intros key endpoint a b -> Hk ->. simpl.
    apply falsy_false in Hk. rewrite Hk.
    pose proof (first_truthy_nonempty a b "Unknown error" ltac:(done)) as Hne.
    split; [|done].
    apply (generateResponse_error _ _ _ _ _ Hm). simpl.
    apply falsy_false in Hne. by rewrite Hne.
  - intros Hkey. exists who. split; [done|].
    assert (Hnf : Server.failure_reason
                    (Server.Returned "" (Some (who +:+ " API key not found")))
                  = Some (who +:+ " API key not found")%string).
    { simpl. replace (falsy (who +:+ " API key not found")) with false; [done|].
      symmetry. apply falsy_false. by destruct who. }
    destruct Hkey as [-> | ->]; simpl;
      by apply (generateResponse_error _ _ _ _ _ Hm).
Qed.

Lemma provider_call_ends_in_text_or_apology_witness :
  Server.generateResponse_with "ChatGPT" (Server.KeyRow (Some "sk-1") None)
    (Server.HttpFailed None (Some "timeout of 5000ms exceeded")) =
    "I'm sorry, but ChatGPT encountered an error: timeout of 5000ms exceeded"%string ∧
  Server.generateResponse_with "ChatGPT" (Server.KeyRow (Some "sk-1") None)
    (Server.HttpOk "Hi Ann") = "Hi Ann"%string.
Proof.
  assert (Hm : Server.models !! "ChatGPT" = Some ("openai", "gpt-4")%string)
    by (vm_compute; reflexivity).
  split.
  - destruct (provider_call_ends_in_text_or_apology "ChatGPT" _ _
                (Server.KeyRow (Some "sk-1") None)
                (Server.HttpFailed None (Some "timeout of 5000ms exceeded")) Hm)
      as (_ & H2 & _).
    destruct (H2 "sk-1"%string None None (Some "timeout of 5000ms exceeded"%string)
                eq_refl ltac:(discriminate) eq_refl) as [H _].
    rewrite H. vm_compute. reflexivity.
  - destruct (provider_call_ends_in_text_or_apology "ChatGPT" _ _
                (Server.KeyRow (Some "sk-1") None) (Server.HttpOk "Hi Ann") Hm)
      as (H1 & _).
    exact (H1 "sk-1"%string None "Hi Ann"%string eq_refl ltac:(discriminate) eq_refl).
Defined.

(** X20: the only user of a chat leaves it, or disconnects, while a provider
    call of the chat is pending. The chat is no longer tracked, and when the
    call settles its reply is dropped: nothing is saved, nothing is
    broadcast, and the loop over the participants ends. *)
Theorem last_user_leaving_drops_the_reply
    (m : Server.manager) (t : nat) (userId chatId content username llm : string)
    (rest : list string) (cd : Server.chatData) (o : Server.call_outcome) :
  Server.awaiting m !! t =
    Some (Server.AwaitGenerate chatId content username llm rest) →
  Server.activeChats m !! chatId = Some cd →
  Server.users cd = {[userId]} →
  let left := Server.step (Server.OnLeave userId chatId) m in
  let gone := Server.step (Server.OnDisconnect userId) m in
  (Server.activeChats left !! chatId = None ∧
   Server.step (Server.Settles t (Server.GotResponse o)) left = Server.finish t left) ∧
  (Server.activeChats gone !! chatId = None ∧
   Server.step (Server.Settles t (Server.GotResponse o)) gone = Server.finish t gone).
Proof.
  intros Ht Hcd Hu left gone.
  assert (Hd : Server.drop_user userId cd = None).
  { unfold Server.drop_user. rewrite Hu, difference_diag_L. by rewrite decide_True. }
  assert (Hl : Server.activeChats left !! chatId = None).
  { subst left. simpl. unfold Server.leaveChat. rewrite Hcd, Hd. simpl.
    apply lookup_delete_eq. }
  assert (Hg : Server.activeChats gone !! chatId = None).
  { subst gone. simpl. rewrite lookup_omap, Hcd. simpl.
    rewrite decide_True by (rewrite Hu; by apply elem_of_singleton). done. }
  split; (split; [done|]).
  - apply (inactive_reply_discarded t left chatId content username llm rest o).
    + subst left. simpl. unfold Server.leaveChat. by rewrite Hcd, Hd.
    + unfold Server.is_active. by rewrite Hl.
  - apply (inactive_reply_discarded t gone chatId content username llm rest o).
    + done.
    + unfold Server.is_active. by rewrite Hg.
Qed.

Lemma last_user_leaving_drops_the_reply_witness :
  let m :=
    Server.run
      (Server.joined ++
       [Server.OnMessage "u1" Server.hello;
        Server.Settles 1 (Server.GotProfile (Some "Ann"))])
      Server.initial_manager in
  let left := Server.step (Server.OnLeave "u1" "c1") m in
  Server.activeChats left !! "c1" = None ∧
  Server.emits (Server.step (Server.Settles 1 (Server.GotResponse (Server.Returned "Hi" None))) left)
    = Server.emits left.
Proof.
  intros m left.
  assert (Ht : Server.awaiting m !! 1 =
               Some (Server.AwaitGenerate "c1" "hello" "Ann" "ChatGPT" ["Claude"]))
    by (vm_compute; reflexivity).
  assert (Hcd : Server.activeChats m !! "c1" =
                Some (Server.ChatData Server.active {["u1"]} ["ChatGPT"; "Claude"]))
    by (vm_compute; reflexivity).
  destruct (last_user_leaving_drops_the_reply m 1 "u1" "c1" "hello" "Ann" "ChatGPT"
              ["Claude"] _ (Server.Returned "Hi" None) Ht Hcd eq_refl)
    as [[H1 H2] _].
  split; [exact H1|]. fold left in H2. unfold left at 1. 
  change (Server.step (Server.Settles 1 (Server.GotResponse (Server.Returned "Hi" None)))
            (Server.step (Server.OnLeave "u1" "c1") m))
    with (Server.step (Server.Settles 1 (Server.GotResponse (Server.Returned "Hi" None))) left).
  rewrite H2. reflexivity.
Defined.

(** X21: the status broadcasts and the listeners of [subscribeToChat]. After
    a successful update the coordinator emits [paused], [stopped] or
    [resume]; the client listens for [pause], [stop] and [resume]. So only a
    resume changes the status that a subscriber shows: after a pause or a
    stop by another user the subscriber's view is unchanged. *)
Theorem only_resume_reaches_subscribers
    (m : Server.manager) (chatId : string) (st : Server.status) (v : Client.view) :
  let m' := (Server.updateChatStatus_settled chatId st true m).1 in
  Server.emits m' =
    Server.emits m ++ [Server.EmitStatus chatId (Server.status_event st) chatId] ∧
  Client.receive_all chatId (drop (length (Server.emits m)) (Server.emits m')) v =
    match st with
    | Server.active =>
        Client.View (Client.messages v) (Client.thinkingLLMs v)
          (match Client.status v with Some _ => Some Server.active | None => None end)
    | Server.paused | Server.stopped => v
    end.
Proof.
  intros m'. subst m'. unfold Server.updateChatStatus_settled, Server.emit. simpl.
  split; [done|].
  rewrite drop_app_length.
  unfold Client.receive_all, Client.receive, Client.subscribeToChat.
  destruct st, v as [ms th [s|]]; simpl; rewrite ?decide_True by done; reflexivity.
Qed.

Section Round.
Import Client.

Lemma receive_all_app (chatId : string) (es1 es2 : list Server.emitted) (v : view) :
  receive_all chatId (es1 ++ es2) v = receive_all chatId es2 (receive_all chatId es1 v).
Proof. unfold receive_all. by rewrite foldl_app. Qed.

Lemma filter_without (llm : string) (rest th : list string) :
  filter (λ x, x ∉ rest) (filter (λ x, x ≠ llm) th) = filter (λ x, x ∉ llm :: rest) th.
Proof.
  rewrite list_filter_filter. apply list_filter_iff. intros x.
  rewrite not_elem_of_cons. tauto.
Qed.

End Round.

(** X22: a subscriber that receives the broadcasts of a full round (for each
    participant its thinking status, then its reply) ends with the thinking
    list it had, less the participants of the round: every indicator that
    the round set is removed by the reply, together with any older indicator
    of the same participant; the status shown is untouched. *)
Theorem round_clears_thinking_indicators
    (chatId : string) (o : string → Server.call_outcome) (sv : string → nat * string)
    (l : list string) (v : Client.view) :
  let v' := Client.receive_all chatId (Server.round_emits chatId o sv l) v in
  Client.thinkingLLMs v' = filter (λ x, x ∉ l) (Client.thinkingLLMs v) ∧
  Client.status v' = Client.status v.
Proof.
  revert v. induction l as [|llm rest IH]; intros v v'.
  - subst v'. simpl. split; [|done].
    symmetry. induction (Client.thinkingLLMs v) as [|x th IHth]; [done|].
    rewrite filter_cons_True by apply not_elem_of_nil. f_equal. exact IHth.
  - subst v'.
    change (Server.round_emits chatId o sv (llm :: rest))
      with ([Server.EmitThinking chatId chatId llm;
             Server.EmitMessage chatId
               (Server.Message (Some (sv llm).1) chatId llm
                  (Server.generateResponse llm (o llm)) false (Some (sv llm).2))]
            ++ Server.round_emits chatId o sv rest).
    rewrite receive_all_app.
    set (v1 := Client.receive_all chatId [_; _] v).
    assert (E : v1 = Client.View
                       (Client.messages v ++
                        [Server.Message (Some (sv llm).1) chatId llm
                           (Server.generateResponse llm (o llm)) false (Some (sv llm).2)])
                       (filter (λ x, x ≠ llm) (Client.thinkingLLMs v))
                       (Client.status v)).
    { subst v1. unfold Client.receive_all, Client.receive. simpl.
      rewrite !decide_True by done. simpl. f_equal.
      rewrite filter_app. rewrite (filter_cons_False _ llm []) by (intros H; by apply H).
      by rewrite filter_nil, app_nil_r. }
    destruct (IH v1) as (H2 & H3). rewrite H2, H3, E. simpl.
    split; [|done]. apply filter_without.
Qed.
